(** * Isentropic nozzle relations: symbolic core and numeric wrapper

    A shallow embedding of [symgas/symbolic_nozzle.py] and
    [symgas/numerics.py].

    Modelling conventions.
    - Python floats and NumPy float64 entries are idealised as real
      numbers ([R]); rounding is not modelled.
    - A SymPy expression is the tree of operator applications that the
      Python operators [+ - * / **] record ([expr]).
    - Numeric evaluation ([sp.N] after [subs], or a lambdified function
      applied to a number) is [eval], with [None] standing for "no finite
      real value": a SymPy [zoo]/[nan], an IEEE infinity/NaN, or a raised
      arithmetic error.
    - Python exceptions are an explicit error monad ([result]). *)

From Stdlib Require Import Reals Ranalysis5 Lra Lia Psatz ZArith List String.
Import ListNotations.

Open Scope R_scope.

(** ** Exceptions and the error monad *)

Inductive exn : Type :=
| ZeroDivisionError
| KeyError (key : string).

Inductive result (A : Type) : Type :=
| Ok (a : A)
| Raise (e : exn).

Arguments Ok {A} a.
Arguments Raise {A} e.

Definition bind {A B : Type} (m : result A) (k : A -> result B) : result B :=
  match m with
  | Ok a => k a
  | Raise e => Raise e
  end.

Notation "x <- m ;; k" := (bind m (fun x => k))
  (at level 61, m at next level, right associativity).

Definition is_ok {A : Type} (m : result A) : bool :=
  match m with Ok _ => true | Raise _ => false end.

(** ** Symbolic expressions *)

Inductive symbol : Type :=
| sym_gamma
| sym_M.

Inductive expr : Type :=
| Num (x : R)
| Sym (s : symbol)
| Add (a b : expr)
| Sub (a b : expr)
| Mul (a b : expr)
| Div (a b : expr)
| Pow (a b : expr).

(** [gamma = sp.symbols("gamma", positive=True)] and
    [mach = sp.symbols("M", positive=True)]. *)
Definition gamma : expr := Sym sym_gamma.
Definition mach : expr := Sym sym_M.

(** The argument type [sp.Symbol | float] of the formula functions. *)
Inductive pyval : Type :=
| PyFloat (x : R)
| PyExpr (e : expr).

Definition sympify (v : pyval) : expr :=
  match v with
  | PyFloat x => Num x
  | PyExpr e => e
  end.

(** Python's binary operators: two numbers are combined by float
    arithmetic, anything involving an expression builds an expression.
    Only float division can raise. *)
Definition py_add (a b : pyval) : pyval :=
  match a, b with
  | PyFloat x, PyFloat y => PyFloat (x + y)
  | _, _ => PyExpr (Add (sympify a) (sympify b))
  end.

Definition py_sub (a b : pyval) : pyval :=
  match a, b with
  | PyFloat x, PyFloat y => PyFloat (x - y)
  | _, _ => PyExpr (Sub (sympify a) (sympify b))
  end.

Definition py_mul (a b : pyval) : pyval :=
  match a, b with
  | PyFloat x, PyFloat y => PyFloat (x * y)
  | _, _ => PyExpr (Mul (sympify a) (sympify b))
  end.

Definition py_truediv (a b : pyval) : result pyval :=
  match a, b with
  | PyFloat x, PyFloat y =>
      if Req_dec_T y 0 then Raise ZeroDivisionError else Ok (PyFloat (x / y))
  | _, _ => Ok (PyExpr (Div (sympify a) (sympify b)))
  end.

(** ** Numeric meaning of an expression *)

(** Real power [x ** y]. *)
Definition real_pow (x y : R) : option R :=
  if Rlt_dec 0 x then Some (Rpower x y)
  else if Req_dec_T y (IZR (Int_part y)) then
    if Rle_dec 0 y then Some (x ^ Z.to_nat (Int_part y))
    else if Req_dec_T x 0 then None
    else Some (/ x ^ Z.to_nat (- Int_part y))
  else if Req_dec_T x 0 then (if Rlt_dec 0 y then Some 0 else None)
  else None.

Definition real_div (x y : R) : option R :=
  if Req_dec_T y 0 then None else Some (x / y).

Definition lift2 (f : R -> R -> option R) (a b : option R) : option R :=
  match a, b with
  | Some x, Some y => f x y
  | _, _ => None
  end.

(** Value of an expression at Mach number [M].  The symbol [gamma] has
    no numeric value until it is substituted. *)
Fixpoint eval (M : R) (e : expr) : option R :=
  match e with
  | Num x => Some x
  | Sym sym_M => Some M
  | Sym sym_gamma => None
  | Add a b => lift2 (fun x y => Some (x + y)) (eval M a) (eval M b)
  | Sub a b => lift2 (fun x y => Some (x - y)) (eval M a) (eval M b)
  | Mul a b => lift2 (fun x y => Some (x * y)) (eval M a) (eval M b)
  | Div a b => lift2 real_div (eval M a) (eval M b)
  | Pow a b => lift2 real_pow (eval M a) (eval M b)
  end.

(** [e.subs({gamma: g_value})]. *)
Fixpoint subs (g_value : R) (e : expr) : expr :=
  match e with
  | Num x => Num x
  | Sym sym_gamma => Num g_value
  | Sym sym_M => Sym sym_M
  | Add a b => Add (subs g_value a) (subs g_value b)
  | Sub a b => Sub (subs g_value a) (subs g_value b)
  | Mul a b => Mul (subs g_value a) (subs g_value b)
  | Div a b => Div (subs g_value a) (subs g_value b)
  | Pow a b => Pow (subs g_value a) (subs g_value b)
  end.

(** ** symbolic_nozzle.py: the four formulas *)

(** [1 / (1 + (g - 1) / 2 * M**2)] *)
Definition temperature_ratio_isentropic (g : pyval) : result expr :=
  let M := mach in
  h <- py_truediv (py_sub g (PyFloat 1)) (PyFloat 2) ;;
  Ok (Div (Num 1) (Add (Num 1) (Mul (sympify h) (Pow M (Num 2))))).

(** [T_T0 ** (g / (g - 1))] *)
Definition pressure_ratio_isentropic (g : pyval) : result expr :=
  T_T0 <- temperature_ratio_isentropic g ;;
  p <- py_truediv g (py_sub g (PyFloat 1)) ;;
  Ok (Pow T_T0 (sympify p)).

(** [T_T0 ** (1 / (g - 1))] *)
Definition density_ratio_isentropic (g : pyval) : result expr :=
  T_T0 <- temperature_ratio_isentropic g ;;
  p <- py_truediv (PyFloat 1) (py_sub g (PyFloat 1)) ;;
  Ok (Pow T_T0 (sympify p)).

(** [term = (2 / (g + 1)) * (1 + (g - 1) / 2 * M**2)],
    [exponent = (g + 1) / (2 * (g - 1))],
    [(1 / M) * term**exponent] *)
Definition area_mach_relation (g : pyval) : result expr :=
  let M := mach in
  c <- py_truediv (PyFloat 2) (py_add g (PyFloat 1)) ;;
  h <- py_truediv (py_sub g (PyFloat 1)) (PyFloat 2) ;;
  let term := Mul (sympify c) (Add (Num 1) (Mul (sympify h) (Pow M (Num 2)))) in
  exponent <- py_truediv (py_add g (PyFloat 1))
                         (py_mul (PyFloat 2) (py_sub g (PyFloat 1))) ;;
  Ok (Mul (Div (Num 1) M) (Pow term (sympify exponent))).

(** ** Dictionaries (insertion-ordered, string keys) *)

Definition dict (V : Type) : Type := list (string * V).

Fixpoint dict_get {V : Type} (d : dict V) (k : string) : result V :=
  match d with
  | [] => Raise (KeyError k)
  | (k', v) :: d' => if String.eqb k k' then Ok v else dict_get d' k
  end.

(** ** symbolic_nozzle.py: the bundling operation

    [sp.simplify] belongs to the external algebra engine and is a
    parameter of the model. *)

Definition expressions_for_gamma (simplify : expr -> expr) (g_value : R)
  : result (dict expr) :=
  let g_sub := subs g_value in
  T <- temperature_ratio_isentropic (PyExpr gamma) ;;
  let T_T0 := simplify (g_sub T) in
  p <- pressure_ratio_isentropic (PyExpr gamma) ;;
  let p_p0 := simplify (g_sub p) in
  rho <- density_ratio_isentropic (PyExpr gamma) ;;
  let rho_rho0 := simplify (g_sub rho) in
  A <- area_mach_relation (PyExpr gamma) ;;
  let A_Astar := simplify (g_sub A) in
  Ok [("T_T0", T_T0); ("p_p0", p_p0); ("rho_rho0", rho_rho0);
      ("A_Astar", A_Astar)]%string.

(** The test suite's "direct" expression:
    [formula(gamma).subs({gamma: g_val})]. *)
Definition direct (formula : pyval -> result expr) (g_val : R) : result expr :=
  e <- formula (PyExpr gamma) ;;
  Ok (subs g_val e).

(** ** numerics.py *)

(** A float array; an entry is [None] when it is not a finite number. *)
Definition ndarray : Type := list (option R).

(** [lambdify(mach, e, modules="numpy")]: a function of [M], applied
    entry by entry to an array (the shape NumPy gives the result of an
    expression without [M] in it is not modelled). *)
Definition lambdify (e : expr) : R -> option R := fun M => eval M e.

Record IsentropicNozzleNumeric : Type := mkNozzle {
  gamma_value : R;
  _T_T0 : R -> option R;
  _p_p0 : R -> option R;
  _rho_rho0 : R -> option R;
  _A_Astar : R -> option R
}.

(** Dataclass construction: the field is stored, then [__post_init__]
    compiles the four expressions. *)
Definition __post_init__ (simplify : expr -> expr) (gamma_value : R)
  : result IsentropicNozzleNumeric :=
  exprs <- expressions_for_gamma simplify gamma_value ;;
  eT <- dict_get exprs "T_T0" ;;
  ep <- dict_get exprs "p_p0" ;;
  erho <- dict_get exprs "rho_rho0" ;;
  eA <- dict_get exprs "A_Astar" ;;
  Ok (mkNozzle gamma_value (lambdify eT) (lambdify ep) (lambdify erho)
               (lambdify eA)).

(** *** Methods

    A method runs against the instance and hands back the instance as it
    is afterwards, next to its return value. *)
Definition method (A : Type) : Type :=
  IsentropicNozzleNumeric -> A * IsentropicNozzleNumeric.

Definition mret {A : Type} (a : A) : method A := fun self => (a, self).

Definition mbind {A B : Type} (m : method A) (k : A -> method B) : method B :=
  fun self => let (a, self') := m self in k a self'.

(** Reading an attribute of [self]. *)
Definition getattr {A : Type} (field : IsentropicNozzleNumeric -> A)
  : method A :=
  fun self => (field self, self).

Notation "x <~ m ;; k" := (mbind m (fun x => k))
  (at level 61, m at next level, right associativity).

(** What a call returns, and the instance it leaves behind. *)
Definition returns {A : Type} (m : method A) (self : IsentropicNozzleNumeric)
  : A := fst (m self).

Definition leaves {A : Type} (m : method A) (self : IsentropicNozzleNumeric)
  : IsentropicNozzleNumeric := snd (m self).

(** The four accessors, applied to an array of Mach numbers:
    [np.asarray(self._T_T0(M), dtype=float)] and its siblings. *)
Definition T_T0 (M : list R) : method ndarray :=
  f <~ getattr _T_T0 ;; mret (map f M).

Definition p_p0 (M : list R) : method ndarray :=
  f <~ getattr _p_p0 ;; mret (map f M).

Definition rho_rho0 (M : list R) : method ndarray :=
  f <~ getattr _rho_rho0 ;; mret (map f M).

Definition A_Astar (M : list R) : method ndarray :=
  f <~ getattr _A_Astar ;; mret (map f M).

(** Python float division [x / y]. *)
Definition float_truediv (x y : R) : result R :=
  if Req_dec_T y 0 then Raise ZeroDivisionError else Ok (x / y).

(** [array * scalar]. *)
Definition scale (a : ndarray) (s : R) : ndarray :=
  map (option_map (fun x => x * s)) a.

Definition dimensional_profiles (M : list R) (T0 p0 : R) (rho0 : option R)
  : method (result (dict ndarray)) :=
  let M_arr := M in
  match
    match rho0 with
    | None => let R := 287 in float_truediv p0 (R * T0)
    | Some r => Ok r
    end
  with
  | Raise e => mret (Raise e)
  | Ok rho0 =>
      T_T0 <~ T_T0 M_arr ;;
      p_p0 <~ p_p0 M_arr ;;
      rho_rho0 <~ rho_rho0 M_arr ;;
      A_Astar <~ A_Astar M_arr ;;
      let T := scale T_T0 T0 in
      let p := scale p_p0 p0 in
      let rho := scale rho_rho0 rho0 in
      mret (Ok [("M", map Some M_arr); ("T", T); ("p", p); ("rho", rho);
                ("A_Astar", A_Astar)]%string)
  end.

(** *** The public interface *)

Inductive call : Type :=
| call_T_T0 (M : list R)
| call_p_p0 (M : list R)
| call_rho_rho0 (M : list R)
| call_A_Astar (M : list R)
| call_dimensional_profiles (M : list R) (T0 p0 : R) (rho0 : option R).

Inductive answer : Type :=
| ans_array (a : ndarray)
| ans_profiles (d : result (dict ndarray)).

Definition invoke (c : call) : method answer :=
  match c with
  | call_T_T0 M => a <~ T_T0 M ;; mret (ans_array a)
  | call_p_p0 M => a <~ p_p0 M ;; mret (ans_array a)
  | call_rho_rho0 M => a <~ rho_rho0 M ;; mret (ans_array a)
  | call_A_Astar M => a <~ A_Astar M ;; mret (ans_array a)
  | call_dimensional_profiles M T0 p0 rho0 =>
      d <~ dimensional_profiles M T0 p0 rho0 ;; mret (ans_profiles d)
  end.

(** The instance after a sequence of calls. *)
Fixpoint run (cs : list call) (self : IsentropicNozzleNumeric)
  : IsentropicNozzleNumeric :=
  match cs with
  | [] => self
  | c :: cs' => run cs' (leaves (invoke c) self)
  end.

(** ** The closed forms as the specification writes them *)

Module Spec.

Definition temperatureRatio (g M : R) : R :=
  1 / (1 + (g - 1) / 2 * M ^ 2).

Definition pressureRatio (g M : R) : R :=
  Rpower (temperatureRatio g M) (g / (g - 1)).

Definition densityRatio (g M : R) : R :=
  Rpower (temperatureRatio g M) (1 / (g - 1)).

Definition areaMachRatio (g M : R) : R :=
  (1 / M) *
  Rpower ((2 / (g + 1)) * (1 + (g - 1) / 2 * M ^ 2))
         ((g + 1) / (2 * (g - 1))).

End Spec.

(** [formula] has value [v] at [M] once gamma is bound to [g], whichever
    way it is bound: passed as a number, or passed as the symbol and
    substituted afterwards. *)
Definition denotes (formula : pyval -> result expr) (g M v : R) : Prop :=
  (exists e, formula (PyFloat g) = Ok e /\ eval M e = Some v) /\
  (exists e, formula (PyExpr gamma) = Ok e /\ eval M (subs g e) = Some v).

(** The key/formula pairs that the test suite iterates over. *)
Definition ratio_table : list (string * (pyval -> result expr)) :=
  [("T_T0", temperature_ratio_isentropic);
   ("p_p0", pressure_ratio_isentropic);
   ("rho_rho0", density_ratio_isentropic);
   ("A_Astar", area_mach_relation)]%string.

(** [exprs[key].subs({mach: M})], numerically. *)
Definition bundled_value (simplify : expr -> expr) (g_value : R)
    (key : string) (M : R) : result (option R) :=
  exprs <- expressions_for_gamma simplify g_value ;;
  e <- dict_get exprs key ;;
  Ok (eval M e).

(** [formula(gamma).subs({gamma: g_val}).subs({mach: M})], numerically. *)
Definition direct_value (formula : pyval -> result expr) (g_val M : R)
  : result (option R) :=
  e <- direct formula g_val ;;
  Ok (eval M e).

(** [np.isclose(a, b, rtol, atol)] on finite numbers. *)
Definition isclose (a b rtol atol : R) : Prop :=
  Rabs (a - b) <= atol + rtol * Rabs b.

(** ** What is assumed of the external simplifier

    Both symbols are declared [positive=True], so a simplification is
    only bound to keep the value of an expression at the Mach numbers
    that the declaration admits. *)
Definition is_positive (s : symbol) : bool :=
  match s with
  | sym_gamma => true
  | sym_M => true
  end.

Definition admissible (M : R) : Prop :=
  is_positive sym_M = true -> 0 < M.

Definition preserves_values_on (D : R -> Prop) (simplify : expr -> expr)
  : Prop :=
  forall e M v, D M -> eval M e = Some v -> eval M (simplify e) = Some v.

Definition exact_at (M : R) (simplify : expr -> expr) : Prop :=
  forall e, eval M (simplify e) = eval M e.

(** A rewriting that is valid for positive [M] only: multiply by
    [(M**2)**(1/2) / M]. *)
Definition fold_abs (e : expr) : expr :=
  Mul (Div (Pow (Pow mach (Num 2)) (Num (1 / 2))) mach) e.

(** ** Monotonicity of a formula in [M] over a set of Mach numbers *)

Definition decreasing_on (D : R -> Prop) (formula : pyval -> result expr)
    (g : R) : Prop :=
  forall M1 M2, D M1 -> D M2 -> M1 < M2 ->
    exists v1 v2,
      denotes formula g M1 v1 /\ denotes formula g M2 v2 /\ v2 < v1.

Definition increasing_on (D : R -> Prop) (formula : pyval -> result expr)
    (g : R) : Prop :=
  forall M1 M2, D M1 -> D M2 -> M1 < M2 ->
    exists v1 v2,
      denotes formula g M1 v1 /\ denotes formula g M2 v2 /\ v1 < v2.

(** ** Occurrences of the symbol gamma *)

Fixpoint mentions_gamma (e : expr) : bool :=
  match e with
  | Num _ => false
  | Sym sym_gamma => true
  | Sym sym_M => false
  | Add a b | Sub a b | Mul a b | Div a b | Pow a b =>
      mentions_gamma a || mentions_gamma b
  end.


(** [e] is what [formula] yields for gamma = [g], bound either way. *)
Definition yields (formula : pyval -> result expr) (g : R) (e : expr) : Prop :=
  formula (PyFloat g) = Ok e \/ direct formula g = Ok e.

(** * Arithmetic facts *)

Lemma real_pow_pos (x y : R) : 0 < x -> real_pow x y = Some (Rpower x y).
Proof.
  intros Hx. unfold real_pow.
  destruct (Rlt_dec 0 x) as [_ | Hn]; [reflexivity | contradiction].
Qed.

Lemma Int_part_2 : Int_part 2 = 2%Z.
Proof. symmetry. apply Int_part_spec. lra. Qed.

Lemma real_pow_sq (M : R) : real_pow M 2 = Some (M ^ 2).
Proof.
  unfold real_pow.
  destruct (Rlt_dec 0 M) as [Hpos | Hneg].
  - f_equal. replace 2 with (INR 2) by (simpl; lra).
    now apply Rpower_pow.
  - rewrite Int_part_2.
    destruct (Req_dec_T 2 2) as [_ | Hne]; [ | lra].
    destruct (Rle_dec 0 2) as [_ | Hn]; [ | lra].
    reflexivity.
Qed.

Lemma Rpower_one_base (y : R) : Rpower 1 y = 1.
Proof. unfold Rpower. rewrite ln_1, Rmult_0_r. apply exp_0. Qed.

Lemma real_div_ok (x y : R) : y <> 0 -> real_div x y = Some (x / y).
Proof.
  intros Hy. unfold real_div.
  destruct (Req_dec_T y 0); [contradiction | reflexivity].
Qed.

Lemma real_div_zero (x : R) : real_div x 0 = None.
Proof.
  unfold real_div. destruct (Req_dec_T 0 0) as [_ | Hn]; [reflexivity | lra].
Qed.

Lemma py_truediv_float (x y : R) :
  y <> 0 -> py_truediv (PyFloat x) (PyFloat y) = Ok (PyFloat (x / y)).
Proof.
  intros Hy. simpl. destruct (Req_dec_T y 0); [contradiction | reflexivity].
Qed.

Lemma py_truediv_float_zero (x : R) :
  py_truediv (PyFloat x) (PyFloat 0) = Raise ZeroDivisionError.
Proof.
  simpl. destruct (Req_dec_T 0 0) as [_ | Hn]; [reflexivity | lra].
Qed.

(** * Values of the four formulas *)

Lemma temperature_float (g : R) :
  temperature_ratio_isentropic (PyFloat g) =
  Ok (Div (Num 1) (Add (Num 1) (Mul (Num ((g - 1) / 2)) (Pow mach (Num 2))))).
Proof.
  unfold temperature_ratio_isentropic. cbn [py_sub].
  rewrite py_truediv_float by lra. reflexivity.
Qed.

(** Unfolds one layer of expression evaluation. *)
Ltac eval_cbn :=
  cbn [subs eval mach lift2 sympify gamma py_sub py_add py_mul py_truediv
       bind].

Lemma temperature_denotes (g M : R) :
  1 + (g - 1) / 2 * M ^ 2 <> 0 ->
  denotes temperature_ratio_isentropic g M (Spec.temperatureRatio g M).
Proof.
  intros Hb. unfold Spec.temperatureRatio. split.
  - eexists. split; [apply temperature_float | ].
    eval_cbn. rewrite real_pow_sq. eval_cbn.
    now rewrite real_div_ok.
  - eexists. split; [reflexivity | ].
    eval_cbn. rewrite real_pow_sq, real_div_ok by lra. eval_cbn.
    now rewrite real_div_ok.
Qed.

Lemma temperatureRatio_pos (g M : R) :
  0 < 1 + (g - 1) / 2 * M ^ 2 -> 0 < Spec.temperatureRatio g M.
Proof.
  intros Hb. unfold Spec.temperatureRatio.
  apply Rdiv_lt_0_compat; lra.
Qed.

Lemma pressure_denotes (g M : R) :
  g <> 1 -> 0 < 1 + (g - 1) / 2 * M ^ 2 ->
  denotes pressure_ratio_isentropic g M (Spec.pressureRatio g M).
Proof.
  intros Hg Hb. pose proof (temperatureRatio_pos g M Hb) as HT.
  unfold Spec.pressureRatio. unfold Spec.temperatureRatio in *. split.
  - eexists. split.
    + unfold pressure_ratio_isentropic. rewrite temperature_float.
      cbn [bind py_sub]. rewrite py_truediv_float by lra. reflexivity.
    + eval_cbn. rewrite real_pow_sq. eval_cbn.
      rewrite real_div_ok by lra. eval_cbn.
      now apply real_pow_pos.
  - eexists. split; [reflexivity | ].
    eval_cbn. rewrite real_pow_sq, !real_div_ok by lra. eval_cbn.
    rewrite real_div_ok by lra.
    now apply real_pow_pos.
Qed.

Lemma density_denotes (g M : R) :
  g <> 1 -> 0 < 1 + (g - 1) / 2 * M ^ 2 ->
  denotes density_ratio_isentropic g M (Spec.densityRatio g M).
Proof.
  intros Hg Hb. pose proof (temperatureRatio_pos g M Hb) as HT.
  unfold Spec.densityRatio. unfold Spec.temperatureRatio in *. split.
  - eexists. split.
    + unfold density_ratio_isentropic. rewrite temperature_float.
      cbn [bind py_sub]. rewrite py_truediv_float by lra. reflexivity.
    + eval_cbn. rewrite real_pow_sq. eval_cbn.
      rewrite real_div_ok by lra. eval_cbn.
      now apply real_pow_pos.
  - eexists. split; [reflexivity | ].
    eval_cbn. rewrite real_pow_sq, !real_div_ok by lra. eval_cbn.
    rewrite real_div_ok by lra.
    now apply real_pow_pos.
Qed.

Lemma area_float (g : R) :
  g <> 1 -> g + 1 <> 0 ->
  area_mach_relation (PyFloat g) =
  Ok (Mul (Div (Num 1) mach)
          (Pow (Mul (Num (2 / (g + 1)))
                    (Add (Num 1) (Mul (Num ((g - 1) / 2)) (Pow mach (Num 2)))))
               (Num ((g + 1) / (2 * (g - 1)))))).
Proof.
  intros Hg Hg'. unfold area_mach_relation. cbn [py_add py_sub py_mul].
  rewrite !py_truediv_float by lra. reflexivity.
Qed.

Lemma area_denotes (g M : R) :
  g <> 1 -> 0 < g + 1 -> M <> 0 -> 0 < 1 + (g - 1) / 2 * M ^ 2 ->
  denotes area_mach_relation g M (Spec.areaMachRatio g M).
Proof.
  intros Hg Hg' HM Hb. unfold Spec.areaMachRatio.
  assert (Hterm : 0 < 2 / (g + 1) * (1 + (g - 1) / 2 * M ^ 2)).
  { apply Rmult_lt_0_compat; [apply Rdiv_lt_0_compat; lra | lra]. }
  split.
  - eexists. split; [apply area_float; lra | ].
    eval_cbn. rewrite real_pow_sq, real_div_ok by lra. eval_cbn.
    now rewrite real_pow_pos.
  - eexists. split; [reflexivity | ].
    eval_cbn. rewrite real_pow_sq, !real_div_ok by lra. eval_cbn.
    now rewrite real_pow_pos.
Qed.

(** The tabulated values at gamma = 1.4, M = 2:
    T/T0 = 5/9 = 0.5555..., A/A* = 27/16 = 1.6875. *)
Example temperature_at_mach_2 :
  denotes temperature_ratio_isentropic 1.4 2 (5 / 9).
Proof.
  replace (5 / 9) with (Spec.temperatureRatio 1.4 2)
    by (unfold Spec.temperatureRatio; lra).
  apply temperature_denotes. lra.
Qed.

Example area_at_mach_2 : denotes area_mach_relation 1.4 2 (27 / 16).
Proof.
  replace (27 / 16) with (Spec.areaMachRatio 1.4 2).
  - apply area_denotes; lra.
  - unfold Spec.areaMachRatio.
    replace ((1.4 + 1) / (2 * (1.4 - 1))) with (INR 3) by (simpl; lra).
    rewrite Rpower_pow by lra. lra.
Qed.

Example zero_to_a_negative_power : real_pow 0 (-1) = None.
Proof.
  unfold real_pow.
  destruct (Rlt_dec 0 0) as [H | _]; [lra | ].
  replace (Int_part (-1)) with (-1)%Z by (apply Int_part_spec; lra).
  destruct (Req_dec_T (-1) (-1)) as [_ | H]; [ | lra].
  destruct (Rle_dec 0 (-1)) as [H | _]; [lra | ].
  destruct (Req_dec_T 0 0) as [_ | H]; [reflexivity | lra].
Qed.

Example negative_base_integer_power : real_pow (-2) 3 = Some (-8).
Proof.
  unfold real_pow.
  destruct (Rlt_dec 0 (-2)) as [H | _]; [lra | ].
  replace (Int_part 3) with 3%Z by (apply Int_part_spec; lra).
  destruct (Req_dec_T 3 3) as [_ | H]; [ | lra].
  destruct (Rle_dec 0 3) as [_ | H]; [ | lra].
  f_equal. simpl. lra.
Qed.

(** * Monotonicity of the closed forms *)

Lemma ln_le_minus1 (x : R) : 0 < x -> ln x <= x - 1.
Proof.
  intros Hx. pose proof (exp_ineq1_le (ln x)) as H.
  rewrite exp_ln in H by assumption. lra.
Qed.

Lemma ln_lt_minus1 (x : R) : 0 < x -> x <> 1 -> ln x < x - 1.
Proof.
  intros Hx Hne.
  assert (Hl : ln x <> 0).
  { intros H0. apply Hne. apply ln_inv; [assumption | lra | ].
    now rewrite ln_1. }
  pose proof (exp_ineq1 (ln x) Hl) as H.
  rewrite exp_ln in H by assumption. lra.
Qed.

(** Strict concavity of the logarithm, in Bernoulli's form. *)
Lemma bernoulli_ln (th t : R) :
  0 < th < 1 -> 0 < t -> t <> 1 -> th * ln t < ln (1 + th * (t - 1)).
Proof.
  intros [Hth0 Hth1] Ht Hne.
  set (u := 1 + th * (t - 1)).
  assert (Hu : 0 < u) by (unfold u; nra).
  assert (Hu1 : u <> 1) by (unfold u; nra).
  assert (H1 : ln (t / u) <= t / u - 1).
  { apply ln_le_minus1. now apply Rdiv_lt_0_compat. }
  assert (H2 : ln (/ u) < / u - 1).
  { apply ln_lt_minus1; [now apply Rinv_0_lt_compat | ].
    intros E. apply Hu1. rewrite <- (Rinv_inv u), E. apply Rinv_1. }
  unfold Rdiv in H1. rewrite ln_mult in H1 by (auto using Rinv_0_lt_compat).
  rewrite ln_Rinv in H1, H2 by assumption.
  assert (E : th * (t * / u - 1) + (1 - th) * (/ u - 1) = 0).
  { unfold u. field. fold u. lra. }
  nra.
Qed.

Lemma ln_sq (M : R) : 0 < M -> ln (M ^ 2) = 2 * ln M.
Proof. intros HM. simpl. rewrite Rmult_1_r, ln_mult by assumption. lra. Qed.

Lemma area_log_form (g M : R) :
  1 < g -> 0 < M ->
  Spec.areaMachRatio g M =
  exp ((g + 1) / (2 * (g - 1)) *
         (ln (2 / (g + 1)) + ln (1 + (g - 1) / 2 * M ^ 2)) - ln M).
Proof.
  intros Hg HM. unfold Spec.areaMachRatio, Rpower.
  assert (Hc : 0 < 2 / (g + 1)) by (apply Rdiv_lt_0_compat; lra).
  assert (Hb : 0 < 1 + (g - 1) / 2 * M ^ 2) by nra.
  rewrite ln_mult by assumption.
  unfold Rminus at 3. rewrite exp_plus, exp_Ropp, exp_ln by assumption.
  field. lra.
Qed.

Lemma area_log_order (g x y : R) :
  1 < g -> 0 < x -> 0 < y -> x <> y -> (y - x) * (1 - x) <= 0 ->
  (g - 1) / (g + 1) * (ln y - ln x) <
  ln (1 + (g - 1) / 2 * y) - ln (1 + (g - 1) / 2 * x).
Proof.
  intros Hg Hx Hy Hne Hside.
  set (th := (g - 1) / (g + 1)). set (k := (g - 1) / 2).
  assert (Hth : 0 < th < 1).
  { unfold th. split.
    - apply Rdiv_lt_0_compat; lra.
    - apply Rmult_lt_reg_r with (g + 1); [lra | ].
      unfold Rdiv. rewrite Rmult_assoc, Rinv_l by lra. lra. }
  assert (Hk : 0 < k) by (unfold k; lra).
  assert (Hkth : k * (1 - th) = th) by (unfold k, th; field; lra).
  assert (Ht : 0 < y / x) by (now apply Rdiv_lt_0_compat).
  assert (Ht1 : y / x <> 1).
  { intros E. apply Hne. apply (f_equal (fun z => z * x)) in E.
    unfold Rdiv in E. rewrite Rmult_assoc, Rinv_l in E by lra. lra. }
  pose proof (bernoulli_ln th (y / x) Hth Ht Ht1) as HB.
  unfold Rdiv at 1 in HB. rewrite ln_mult, ln_Rinv in HB
    by (auto using Rinv_0_lt_compat).
  assert (Hbx : 0 < 1 + k * x) by nra.
  assert (Hby : 0 < 1 + k * y) by nra.
  assert (Hu : 0 < 1 + th * (y / x - 1)).
  { replace (1 + th * (y / x - 1)) with ((1 - th) + th * (y / x)) by ring.
    assert (0 < th * (y / x)) by (apply Rmult_lt_0_compat; lra). lra. }
  assert (Hle : 1 + th * (y / x - 1) <= (1 + k * y) / (1 + k * x)).
  { apply Rmult_le_reg_r with ((1 + k * x) * x).
    - now apply Rmult_lt_0_compat.
    - replace ((1 + k * y) / (1 + k * x) * ((1 + k * x) * x))
        with ((1 + k * y) * x) by (field; lra).
      replace ((1 + th * (y / x - 1)) * ((1 + k * x) * x))
        with ((x + th * (y - x)) * (1 + k * x)) by (field; lra).
      assert (E : (1 + k * y) * x - (x + th * (y - x)) * (1 + k * x)
                  = - th * ((y - x) * (1 - x))).
      { replace ((1 + k * y) * x - (x + th * (y - x)) * (1 + k * x))
          with ((y - x) * (x * (k * (1 - th)) - th)) by ring.
        rewrite Hkth. ring. }
      assert (0 <= - th * ((y - x) * (1 - x))) by nra.
      lra. }
  assert (Hln : ln (1 + th * (y / x - 1)) <= ln ((1 + k * y) / (1 + k * x))).
  { destruct Hle as [Hlt | Heq].
    - left. now apply ln_increasing.
    - right. now rewrite Heq. }
  unfold Rdiv at 2 in Hln. rewrite ln_mult, ln_Rinv in Hln
    by (auto using Rinv_0_lt_compat).
  lra.
Qed.

Lemma areaMachRatio_order (g Mx My : R) :
  1 < g -> 0 < Mx -> 0 < My -> Mx <> My -> (My - Mx) * (1 - Mx) <= 0 ->
  Spec.areaMachRatio g Mx < Spec.areaMachRatio g My.
Proof.
  intros Hg Hx Hy Hne Hside.
  rewrite !area_log_form by assumption.
  apply exp_increasing.
  assert (Hx2 : 0 < Mx ^ 2) by nra.
  assert (Hy2 : 0 < My ^ 2) by nra.
  assert (Hne2 : Mx ^ 2 <> My ^ 2) by nra.
  assert (Hside2 : (My ^ 2 - Mx ^ 2) * (1 - Mx ^ 2) <= 0).
  { replace ((My ^ 2 - Mx ^ 2) * (1 - Mx ^ 2))
      with (((My - Mx) * (1 - Mx)) * ((My + Mx) * (1 + Mx))) by ring.
    assert (0 < (My + Mx) * (1 + Mx)) by nra. nra. }
  pose proof (area_log_order g _ _ Hg Hx2 Hy2 Hne2 Hside2) as H.
  rewrite !ln_sq in H by assumption.
  set (e := (g + 1) / (2 * (g - 1))).
  assert (He : 0 < e) by (unfold e; apply Rdiv_lt_0_compat; lra).
  assert (Heth : e * ((g - 1) / (g + 1) * (2 * ln My - 2 * ln Mx))
                 = ln My - ln Mx) by (unfold e; field; lra).
  apply (Rmult_lt_compat_l e) in H; [ | assumption].
  rewrite Heth in H. lra.
Qed.

Lemma base_pos (g M : R) : 1 <= g -> 0 < 1 + (g - 1) / 2 * M ^ 2.
Proof. intros Hg. pose proof (pow2_ge_0 M). nra. Qed.

Lemma temperatureRatio_decreasing (g M1 M2 : R) :
  1 < g -> 0 <= M1 < M2 ->
  Spec.temperatureRatio g M2 < Spec.temperatureRatio g M1.
Proof.
  intros Hg [H1 H12]. unfold Spec.temperatureRatio.
  pose proof (base_pos g M1 ltac:(lra)) as Hb1.
  pose proof (base_pos g M2 ltac:(lra)) as Hb2.
  assert (Hsq : M1 ^ 2 < M2 ^ 2) by nra.
  assert (Hk : 0 < (g - 1) / 2) by lra.
  assert (Hlt : 1 + (g - 1) / 2 * M1 ^ 2 < 1 + (g - 1) / 2 * M2 ^ 2).
  { apply Rplus_lt_compat_l. now apply Rmult_lt_compat_l. }
  unfold Rdiv at 1 3. rewrite !Rmult_1_l.
  apply Rinv_lt_contravar; [now apply Rmult_lt_0_compat | assumption].
Qed.

Lemma pressureRatio_decreasing (g M1 M2 : R) :
  1 < g -> 0 <= M1 < M2 ->
  Spec.pressureRatio g M2 < Spec.pressureRatio g M1.
Proof.
  intros Hg HM. unfold Spec.pressureRatio.
  apply Rlt_Rpower_l.
  - apply Rdiv_lt_0_compat; lra.
  - split.
    + apply temperatureRatio_pos, base_pos; lra.
    + now apply temperatureRatio_decreasing.
Qed.

Lemma densityRatio_decreasing (g M1 M2 : R) :
  1 < g -> 0 <= M1 < M2 ->
  Spec.densityRatio g M2 < Spec.densityRatio g M1.
Proof.
  intros Hg HM. unfold Spec.densityRatio.
  apply Rlt_Rpower_l.
  - apply Rdiv_lt_0_compat; lra.
  - split.
    + apply temperatureRatio_pos, base_pos; lra.
    + now apply temperatureRatio_decreasing.
Qed.

Lemma denotes_unique (formula : pyval -> result expr) (g M v v' : R) :
  denotes formula g M v -> denotes formula g M v' -> v = v'.
Proof.
  intros [(e & He & Hv) _] [(e' & He' & Hv') _].
  rewrite He in He'. injection He' as <-.
  rewrite Hv in Hv'. now injection Hv'.
Qed.

Lemma temperatureRatio_at_rest (g : R) : Spec.temperatureRatio g 0 = 1.
Proof. unfold Spec.temperatureRatio. simpl. field. Qed.

Lemma pressureRatio_at_rest (g : R) : Spec.pressureRatio g 0 = 1.
Proof.
  unfold Spec.pressureRatio. rewrite temperatureRatio_at_rest.
  apply Rpower_one_base.
Qed.

Lemma densityRatio_at_rest (g : R) : Spec.densityRatio g 0 = 1.
Proof.
  unfold Spec.densityRatio. rewrite temperatureRatio_at_rest.
  apply Rpower_one_base.
Qed.

Lemma areaMachRatio_sonic (g : R) : 0 < g + 1 -> Spec.areaMachRatio g 1 = 1.
Proof.
  intros Hg. unfold Spec.areaMachRatio.
  replace (2 / (g + 1) * (1 + (g - 1) / 2 * 1 ^ 2)) with 1 by (field; lra).
  rewrite Rpower_one_base. field.
Qed.

(** * The formulas *)

(** C2.  For every gamma other than 1, bound as a number or bound
    symbolically and substituted, each of the four formula functions
    returns an expression whose value at [M] is the stated closed form:
    T/T0 = 1/(1 + (gamma-1)/2 M^2), p/p0 = (T/T0)^(gamma/(gamma-1)),
    rho/rho0 = (T/T0)^(1/(gamma-1)) and
    A/A* = (1/M) [(2/(gamma+1)) (1 + (gamma-1)/2 M^2)]^((gamma+1)/(2(gamma-1))),
    wherever the closed form is a real number (positive base of the
    real power; for the area relation also [M <> 0] and [gamma > -1]). *)
Theorem formulas_return_closed_forms (g M : R) :
  g <> 1 -> 0 < 1 + (g - 1) / 2 * M ^ 2 ->
  denotes temperature_ratio_isentropic g M (Spec.temperatureRatio g M) /\
  denotes pressure_ratio_isentropic g M (Spec.pressureRatio g M) /\
  denotes density_ratio_isentropic g M (Spec.densityRatio g M) /\
  (0 < g + 1 -> M <> 0 ->
   denotes area_mach_relation g M (Spec.areaMachRatio g M)).
Proof.
  intros Hg Hb. repeat split.
  1-2: apply temperature_denotes; lra.
  1-2: now apply pressure_denotes.
  1-2: now apply density_denotes.
  1-2: intros; now apply area_denotes.
Qed.

Lemma formulas_return_closed_forms_witness :
  denotes temperature_ratio_isentropic (7 / 5) 2
          (Spec.temperatureRatio (7 / 5) 2) /\
  denotes pressure_ratio_isentropic (7 / 5) 2 (Spec.pressureRatio (7 / 5) 2) /\
  denotes density_ratio_isentropic (7 / 5) 2 (Spec.densityRatio (7 / 5) 2) /\
  denotes area_mach_relation (7 / 5) 2 (Spec.areaMachRatio (7 / 5) 2).
Proof.
  destruct (formulas_return_closed_forms (7 / 5) 2) as (HT & Hp & Hr & HA).
  - lra.
  - lra.
  - split; [exact HT | ]. split; [exact Hp | ]. split; [exact Hr | ].
    apply HA; lra.
Defined.

(** C3.  For gamma > 1 and M > 0 the pressure and density ratios are the
    powers (T/T0)^(gamma/(gamma-1)) and (T/T0)^(1/(gamma-1)) of the
    temperature ratio.  Both functions build their result as a power of
    the very expression [temperature_ratio_isentropic] returns, so the
    relation is exact, hence within relative tolerance 1e-10. *)
Theorem pressure_density_are_powers_of_temperature (g M : R) :
  1 < g -> 0 < M ->
  exists T p rho,
    denotes temperature_ratio_isentropic g M T /\
    denotes pressure_ratio_isentropic g M p /\
    denotes density_ratio_isentropic g M rho /\
    p = Rpower T (g / (g - 1)) /\
    rho = Rpower T (1 / (g - 1)) /\
    isclose p (Rpower T (g / (g - 1))) 1e-10 0 /\
    isclose rho (Rpower T (1 / (g - 1))) 1e-10 0 /\
    (forall arg, arg = PyFloat g \/ arg = PyExpr gamma ->
       exists eT ep erho,
         temperature_ratio_isentropic arg = Ok eT /\
         pressure_ratio_isentropic arg = Ok (Pow eT ep) /\
         density_ratio_isentropic arg = Ok (Pow eT erho)).
Proof.
  intros Hg HM.
  pose proof (base_pos g M ltac:(lra)) as Hb.
  exists (Spec.temperatureRatio g M), (Spec.pressureRatio g M),
         (Spec.densityRatio g M).
  split; [apply temperature_denotes; lra | ].
  split; [apply pressure_denotes; lra | ].
  split; [apply density_denotes; lra | ].
  split; [reflexivity | ]. split; [reflexivity | ].
  assert (Hclose : forall x, isclose x x 1e-10 0).
  { intros x. unfold isclose. rewrite Rminus_diag, Rabs_R0.
    pose proof (Rabs_pos x). lra. }
  split; [apply Hclose | ]. split; [apply Hclose | ].
  intros arg [-> | ->].
  - do 3 eexists. split; [apply temperature_float | ].
    unfold pressure_ratio_isentropic, density_ratio_isentropic.
    rewrite temperature_float. cbn [bind py_sub].
    rewrite !py_truediv_float by lra. split; reflexivity.
  - do 3 eexists. repeat split; reflexivity.
Qed.

Lemma pressure_density_are_powers_of_temperature_witness :
  exists T p rho,
    denotes temperature_ratio_isentropic (7 / 5) 2 T /\
    denotes pressure_ratio_isentropic (7 / 5) 2 p /\
    denotes density_ratio_isentropic (7 / 5) 2 rho /\
    p = Rpower T (7 / 5 / (7 / 5 - 1)) /\
    rho = Rpower T (1 / (7 / 5 - 1)).
Proof.
  destruct (pressure_density_are_powers_of_temperature (7 / 5) 2)
    as (T & p & rho & HT & Hp & Hr & Ep & Er & _); [lra | lra | ].
  exists T, p, rho. tauto.
Defined.

(** C5.  For every gamma > 1 the temperature, pressure and density
    ratios are exactly 1 at M = 0 (so within 1e-12 of 1), and the area
    ratio is exactly 1 at the sonic point M = 1 (so within 1e-10 of 1). *)
Theorem ratios_normalised (g : R) :
  1 < g ->
  denotes temperature_ratio_isentropic g 0 1 /\
  denotes pressure_ratio_isentropic g 0 1 /\
  denotes density_ratio_isentropic g 0 1 /\
  denotes area_mach_relation g 1 1 /\
  (forall v,
     denotes temperature_ratio_isentropic g 0 v \/
     denotes pressure_ratio_isentropic g 0 v \/
     denotes density_ratio_isentropic g 0 v -> Rabs (v - 1) < 1e-12) /\
  (forall v, denotes area_mach_relation g 1 v -> Rabs (v - 1) < 1e-10).
Proof.
  intros Hg.
  pose proof (base_pos g 0 ltac:(lra)) as Hb0.
  pose proof (base_pos g 1 ltac:(lra)) as Hb1.
  pose proof (temperature_denotes g 0 ltac:(lra)) as HT.
  rewrite temperatureRatio_at_rest in HT.
  pose proof (pressure_denotes g 0 ltac:(lra) Hb0) as Hp.
  rewrite pressureRatio_at_rest in Hp.
  pose proof (density_denotes g 0 ltac:(lra) Hb0) as Hr.
  rewrite densityRatio_at_rest in Hr.
  pose proof (area_denotes g 1 ltac:(lra) ltac:(lra) ltac:(lra) Hb1) as HA.
  rewrite areaMachRatio_sonic in HA by lra.
  repeat (split; [assumption | ]). split.
  - intros v [H | [H | H]];
      [ rewrite (denotes_unique _ _ _ _ _ H HT)
      | rewrite (denotes_unique _ _ _ _ _ H Hp)
      | rewrite (denotes_unique _ _ _ _ _ H Hr) ];
      rewrite Rminus_diag, Rabs_R0; lra.
  - intros v H. rewrite (denotes_unique _ _ _ _ _ H HA).
    rewrite Rminus_diag, Rabs_R0; lra.
Qed.

Lemma ratios_normalised_witness :
  denotes temperature_ratio_isentropic (7 / 5) 0 1 /\
  denotes pressure_ratio_isentropic (7 / 5) 0 1 /\
  denotes density_ratio_isentropic (7 / 5) 0 1 /\
  denotes area_mach_relation (7 / 5) 1 1.
Proof.
  destruct (ratios_normalised (7 / 5)) as (HT & Hp & Hr & HA & _); [lra | ].
  tauto.
Defined.

(** C7.  For fixed gamma > 1, T/T0, p/p0 and rho/rho0 are strictly
    decreasing in M on M >= 0; A/A* is strictly decreasing on
    0 < M <= 1, strictly increasing on M >= 1, and takes its least value
    over M > 0 at the sonic point M = 1 only. *)
Theorem ratios_monotone (g : R) :
  1 < g ->
  decreasing_on (fun M => 0 <= M) temperature_ratio_isentropic g /\
  decreasing_on (fun M => 0 <= M) pressure_ratio_isentropic g /\
  decreasing_on (fun M => 0 <= M) density_ratio_isentropic g /\
  decreasing_on (fun M => 0 < M <= 1) area_mach_relation g /\
  increasing_on (fun M => 1 <= M) area_mach_relation g /\
  (forall M, 0 < M -> M <> 1 ->
     exists v1 v,
       denotes area_mach_relation g 1 v1 /\
       denotes area_mach_relation g M v /\ v1 < v).
Proof.
  intros Hg.
  assert (Hb : forall M, 0 < 1 + (g - 1) / 2 * M ^ 2)
    by (intros; apply base_pos; lra).
  assert (HA : forall M, 0 < M ->
            denotes area_mach_relation g M (Spec.areaMachRatio g M)).
  { intros M HM. apply area_denotes; try lra. apply Hb. }
  split; [ | split; [ | split; [ | split; [ | split]]]].
  - intros M1 M2 H1 H2 H12. do 2 eexists.
    split; [apply temperature_denotes; specialize (Hb M1); lra | ].
    split; [apply temperature_denotes; specialize (Hb M2); lra | ].
    apply temperatureRatio_decreasing; lra.
  - intros M1 M2 H1 H2 H12. do 2 eexists.
    split; [apply pressure_denotes; [lra | apply Hb] | ].
    split; [apply pressure_denotes; [lra | apply Hb] | ].
    apply pressureRatio_decreasing; lra.
  - intros M1 M2 H1 H2 H12. do 2 eexists.
    split; [apply density_denotes; [lra | apply Hb] | ].
    split; [apply density_denotes; [lra | apply Hb] | ].
    apply densityRatio_decreasing; lra.
  - intros M1 M2 H1 H2 H12. do 2 eexists.
    split; [apply HA; lra | ]. split; [apply HA; lra | ].
    apply areaMachRatio_order; try lra. nra.
  - intros M1 M2 H1 H2 H12. do 2 eexists.
    split; [apply HA; lra | ]. split; [apply HA; lra | ].
    apply areaMachRatio_order; try lra. nra.
  - intros M HM Hne. do 2 eexists.
    split; [apply HA; lra | ]. split; [apply HA; lra | ].
    apply areaMachRatio_order; try lra.
Qed.

Lemma ratios_monotone_witness :
  (exists v1 v2,
     denotes temperature_ratio_isentropic (7 / 5) 0 v1 /\
     denotes temperature_ratio_isentropic (7 / 5) 2 v2 /\ v2 < v1) /\
  (exists v1 v2,
     denotes area_mach_relation (7 / 5) 1 v1 /\
     denotes area_mach_relation (7 / 5) 2 v2 /\ v1 < v2).
Proof.
  destruct (ratios_monotone (7 / 5)) as (HT & _ & _ & _ & HA & _); [lra | ].
  split.
  - apply HT; lra.
  - apply HA; lra.
Defined.

(** * The bundled expressions *)

Lemma admissible_pos (M : R) : admissible M <-> 0 < M.
Proof.
  unfold admissible. split; intros H; [now apply H | now intros _].
Qed.


Lemma direct_value_of_denotes (formula : pyval -> result expr) (g M v : R) :
  denotes formula g M v -> direct_value formula g M = Ok (Some v).
Proof.
  intros [_ (e & He & Hv)]. unfold direct_value, direct.
  rewrite He. cbn [bind]. now rewrite Hv.
Qed.

Lemma ratio_table_denotes (g M : R) (key : string)
    (formula : pyval -> result expr) :
  1 < g -> M <> 0 -> In (key, formula) ratio_table ->
  exists v, denotes formula g M v /\ v <> 0.
Proof.
  intros Hg HM Hin.
  pose proof (base_pos g M ltac:(lra)) as Hb.
  pose proof (temperatureRatio_pos g M Hb) as HT.
  cbn [ratio_table In] in Hin.
  destruct Hin as [E | [E | [E | [E | []]]]]; injection E as <- <-.
  - eexists. split; [apply temperature_denotes; lra | lra].
  - eexists. split; [apply pressure_denotes; [lra | exact Hb] | ].
    unfold Spec.pressureRatio, Rpower.
    pose proof (exp_pos (g / (g - 1) * ln (Spec.temperatureRatio g M))). lra.
  - eexists. split; [apply density_denotes; [lra | exact Hb] | ].
    unfold Spec.densityRatio, Rpower.
    pose proof (exp_pos (1 / (g - 1) * ln (Spec.temperatureRatio g M))). lra.
  - eexists. split; [apply area_denotes; try lra; exact Hb | ].
    unfold Spec.areaMachRatio, Rpower.
    apply Rmult_integral_contrapositive_currified.
    + unfold Rdiv. rewrite Rmult_1_l. now apply Rinv_neq_0_compat.
    + match goal with |- exp ?x <> 0 => pose proof (exp_pos x) end. lra.
Qed.

Lemma bundled_value_eq (simplify : expr -> expr) (g M : R) (key : string)
    (formula : pyval -> result expr) :
  In (key, formula) ratio_table ->
  exists e,
    direct formula g = Ok e /\
    bundled_value simplify g key M = Ok (eval M (simplify e)).
Proof.
  intros Hin. cbn [ratio_table In] in Hin.
  destruct Hin as [E | [E | [E | [E | []]]]]; injection E as <- <-;
    eexists; split; reflexivity.
Qed.

Lemma bundled_eq_direct (simplify : expr -> expr) (g M : R) (key : string)
    (formula : pyval -> result expr) :
  preserves_values_on admissible simplify ->
  1 < g -> 0 < M -> In (key, formula) ratio_table ->
  exists v,
    denotes formula g M v /\
    direct_value formula g M = Ok (Some v) /\
    bundled_value simplify g key M = Ok (Some v).
Proof.
  intros Hs Hg HM Hin.
  destruct (ratio_table_denotes g M key formula Hg ltac:(lra) Hin)
    as (v & Hv & _).
  exists v. split; [exact Hv | ].
  pose proof (direct_value_of_denotes _ _ _ _ Hv) as Hd.
  split; [exact Hd | ].
  destruct (bundled_value_eq simplify g M key formula Hin) as (e & He & Hb).
  rewrite Hb. f_equal. apply Hs; [now apply admissible_pos | ].
  unfold direct_value in Hd. rewrite He in Hd. cbn [bind] in Hd.
  now injection Hd.
Qed.

Lemma Rpower_sq_half (M : R) : 0 < M -> Rpower (M ^ 2) (1 / 2) = M.
Proof.
  intros HM. replace (M ^ 2) with (Rpower M (INR 2))
    by (now apply Rpower_pow).
  rewrite Rpower_mult. replace (INR 2 * (1 / 2)) with 1 by (simpl; lra).
  now apply Rpower_1.
Qed.

Lemma eval_fold_abs_pos (M : R) (e : expr) :
  0 < M -> eval M (fold_abs e) = eval M e.
Proof.
  intros HM. unfold fold_abs. eval_cbn.
  rewrite real_pow_sq. eval_cbn.
  rewrite real_pow_pos by nra. eval_cbn.
  rewrite Rpower_sq_half, real_div_ok by lra. eval_cbn.
  destruct (eval M e) as [v | ]; [ | reflexivity].
  f_equal. field. lra.
Qed.

Lemma eval_fold_abs_neg1 (e : expr) (v : R) :
  eval (-1) e = Some v -> eval (-1) (fold_abs e) = Some (- v).
Proof.
  intros Hv. unfold fold_abs. eval_cbn.
  rewrite real_pow_sq. eval_cbn.
  replace ((-1) ^ 2) with 1 by (simpl; lra).
  rewrite real_pow_pos by lra. eval_cbn.
  rewrite Rpower_one_base, real_div_ok by lra. rewrite Hv. eval_cbn.
  f_equal. field.
Qed.

Lemma fold_abs_preserves : preserves_values_on admissible fold_abs.
Proof.
  intros e M v HM Hv.
  pose proof (proj1 (admissible_pos M) HM) as Hpos.
  now rewrite eval_fold_abs_pos.
Qed.

(** C4.  At gamma = 1.4 and M = 2.0, each of the four expressions
    returned by [expressions_for_gamma] has the same value as the
    corresponding individual formula with gamma substituted (bound
    either way), for any simplifier that keeps values at the Mach
    numbers the positivity declaration admits; in particular the two
    are equal, hence agree to relative tolerance 1e-12. *)
Theorem bundle_agrees_with_direct_composition (simplify : expr -> expr) :
  preserves_values_on admissible simplify ->
  Forall (fun kf =>
            exists val_pack val_direct,
              bundled_value simplify 1.4 (fst kf) 2.0 = Ok (Some val_pack) /\
              direct_value (snd kf) 1.4 2.0 = Ok (Some val_direct) /\
              denotes (snd kf) 1.4 2.0 val_direct /\
              val_pack = val_direct /\
              isclose val_pack val_direct 1e-12 0)
         ratio_table.
Proof.
  intros Hs. apply Forall_forall. intros [key formula] Hin.
  destruct (bundled_eq_direct simplify 1.4 2.0 key formula Hs
              ltac:(lra) ltac:(lra) Hin) as (v & Hden & Hd & Hb).
  exists v, v. cbn [fst snd]. repeat (split; [assumption | ]).
  split; [reflexivity | ]. unfold isclose. rewrite Rminus_diag, Rabs_R0.
  pose proof (Rabs_pos v). lra.
Qed.

Lemma bundle_agrees_with_direct_composition_witness :
  Forall (fun kf =>
            exists val_pack val_direct,
              bundled_value (fun e => e) 1.4 (fst kf) 2.0
                = Ok (Some val_pack) /\
              direct_value (snd kf) 1.4 2.0 = Ok (Some val_direct) /\
              denotes (snd kf) 1.4 2.0 val_direct /\
              val_pack = val_direct /\
              isclose val_pack val_direct 1e-12 0)
         ratio_table.
Proof.
  apply (bundle_agrees_with_direct_composition (fun e => e)).
  intros e M v _ Hv. exact Hv.
Defined.

(** C10.  Both symbols are declared positive and [expressions_for_gamma]
    simplifies under that declaration.  Hence, for every gamma > 1 and
    every M > 0, each simplified expression has the value of the
    unsimplified direct formula; for M <= 0 there is no such guarantee:
    a simplification that is valid under the declaration can change the
    value of every one of the four expressions at some M <= 0. *)
Theorem simplification_sound_for_positive_mach_only :
  (is_positive sym_gamma = true /\ is_positive sym_M = true) /\
  (forall simplify g M key formula,
     preserves_values_on admissible simplify ->
     1 < g -> 0 < M -> In (key, formula) ratio_table ->
     exists v,
       direct_value formula g M = Ok (Some v) /\
       bundled_value simplify g key M = Ok (Some v)) /\
  (exists simplify,
     preserves_values_on admissible simplify /\
     forall g key formula,
       1 < g -> In (key, formula) ratio_table ->
       exists M,
         M <= 0 /\
         bundled_value simplify g key M <> direct_value formula g M).
Proof.
  split; [split; reflexivity | ]. split.
  - intros simplify g M key formula Hs Hg HM Hin.
    destruct (bundled_eq_direct simplify g M key formula Hs Hg HM Hin)
      as (v & _ & Hd & Hb).
    now exists v.
  - exists fold_abs. split; [exact fold_abs_preserves | ].
    intros g key formula Hg Hin. exists (-1). split; [lra | ].
    destruct (ratio_table_denotes g (-1) key formula Hg ltac:(lra) Hin)
      as (v & Hv & Hv0).
    pose proof (direct_value_of_denotes _ _ _ _ Hv) as Hd.
    destruct (bundled_value_eq fold_abs g (-1) key formula Hin)
      as (e & He & Hb).
    rewrite Hb, Hd. unfold direct_value in Hd. rewrite He in Hd.
    cbn [bind] in Hd. injection Hd as Hd.
    rewrite (eval_fold_abs_neg1 e v Hd).
    intros E. injection E as E. lra.
Qed.

Lemma simplification_sound_for_positive_mach_only_witness :
  (exists v,
     direct_value area_mach_relation 1.4 2 = Ok (Some v) /\
     bundled_value fold_abs 1.4 "A_Astar" 2 = Ok (Some v)) /\
  (exists simplify,
     preserves_values_on admissible simplify /\
     exists M,
       M <= 0 /\
       bundled_value simplify 1.4 "A_Astar" M
         <> direct_value area_mach_relation 1.4 M).
Proof.
  destruct simplification_sound_for_positive_mach_only
    as (_ & Hpos & (s & Hs & Hneg)).
  split.
  - apply (Hpos fold_abs 1.4 2 "A_Astar"%string area_mach_relation).
    + exact fold_abs_preserves.
    + lra.
    + lra.
    + cbn [ratio_table In]. tauto.
  - exists s. split; [exact Hs | ].
    apply (Hneg 1.4 "A_Astar"%string area_mach_relation).
    + lra.
    + cbn [ratio_table In]. tauto.
Defined.

(** * gamma = 1 *)

Lemma py_truediv_float_raise (x y : R) :
  y = 0 -> py_truediv (PyFloat x) (PyFloat y) = Raise ZeroDivisionError.
Proof.
  intros Hy. simpl. destruct (Req_dec_T y 0); [reflexivity | contradiction].
Qed.

Lemma real_div_none (x y : R) : y = 0 -> real_div x y = None.
Proof. intros ->. apply real_div_zero. Qed.

Lemma lift2_none_r (f : R -> R -> option R) (a : option R) :
  lift2 f a None = None.
Proof. now destruct a. Qed.

Lemma post_init_ok (simplify : expr -> expr) (g : R) :
  exists eT ep er eA,
    direct temperature_ratio_isentropic g = Ok eT /\
    direct pressure_ratio_isentropic g = Ok ep /\
    direct density_ratio_isentropic g = Ok er /\
    direct area_mach_relation g = Ok eA /\
    __post_init__ simplify g =
    Ok (mkNozzle g (lambdify (simplify eT)) (lambdify (simplify ep))
                 (lambdify (simplify er)) (lambdify (simplify eA))).
Proof. do 4 eexists. repeat split; reflexivity. Qed.

(** C1 (as the code behaves).  With gamma = 1 passed as a number,
    [pressure_ratio_isentropic], [density_ratio_isentropic] and
    [area_mach_relation] raise [ZeroDivisionError] when the exponent is
    formed, while [temperature_ratio_isentropic], which never divides by
    gamma - 1, returns an expression of constant value 1.
    [expressions_for_gamma(1)] and the construction of the evaluator
    raise nothing: gamma is substituted into the symbolic formulas, and
    the substituted pressure, density and area expressions have no
    finite value at any M. *)
Theorem gamma_one_behaviour :
  pressure_ratio_isentropic (PyFloat 1) = Raise ZeroDivisionError /\
  density_ratio_isentropic (PyFloat 1) = Raise ZeroDivisionError /\
  area_mach_relation (PyFloat 1) = Raise ZeroDivisionError /\
  (exists e,
     temperature_ratio_isentropic (PyFloat 1) = Ok e /\
     forall M, eval M e = Some 1) /\
  (forall simplify, is_ok (expressions_for_gamma simplify 1) = true) /\
  (forall simplify,
     exists ev, __post_init__ simplify 1 = Ok ev /\ gamma_value ev = 1) /\
  (forall M,
     direct_value temperature_ratio_isentropic 1 M = Ok (Some 1) /\
     direct_value pressure_ratio_isentropic 1 M = Ok None /\
     direct_value density_ratio_isentropic 1 M = Ok None /\
     direct_value area_mach_relation 1 M = Ok None).
Proof.
  split; [ | split; [ | split; [ | split; [ | split; [ | split]]]]].
  - unfold pressure_ratio_isentropic. rewrite temperature_float.
    cbn [bind py_sub]. rewrite py_truediv_float_raise by lra. reflexivity.
  - unfold density_ratio_isentropic. rewrite temperature_float.
    cbn [bind py_sub]. rewrite py_truediv_float_raise by lra. reflexivity.
  - unfold area_mach_relation. cbn [py_add py_sub py_mul].
    rewrite !py_truediv_float by lra. cbn [bind].
    rewrite py_truediv_float_raise by lra. reflexivity.
  - eexists. split; [apply temperature_float | ].
    intros M. eval_cbn. rewrite real_pow_sq. eval_cbn.
    rewrite real_div_ok by lra. f_equal. field.
  - intros simplify. reflexivity.
  - intros simplify.
    destruct (post_init_ok simplify 1) as (eT & ep & er & eA & _ & _ & _ & _ & H).
    eexists. split; [exact H | reflexivity].
  - intros M. repeat split.
    + apply direct_value_of_denotes.
      replace 1 with (Spec.temperatureRatio 1 M) at 2
        by (unfold Spec.temperatureRatio; field; lra).
      apply temperature_denotes. lra.
    + unfold direct_value, direct, pressure_ratio_isentropic,
        temperature_ratio_isentropic. eval_cbn. f_equal.
      rewrite (real_div_none 1 (1 - 1)) by lra. apply lift2_none_r.
    + unfold direct_value, direct, density_ratio_isentropic,
        temperature_ratio_isentropic. eval_cbn. f_equal.
      rewrite (real_div_none 1 (1 - 1)) by lra. apply lift2_none_r.
    + unfold direct_value, direct, area_mach_relation. eval_cbn.
      f_equal.
      replace (real_div (1 + 1) (2 * (1 - 1))) with (@None R)
        by (symmetry; apply real_div_none; lra).
      rewrite (lift2_none_r real_pow). apply lift2_none_r.
Qed.

(** Refutation of C1 as stated: at gamma = 1 the temperature formula
    returns normally, the evaluator is constructed without error, and
    its compiled pressure function yields no finite value at M = 2. *)
Lemma gamma_one_does_not_fail_fast :
  is_ok (temperature_ratio_isentropic (PyFloat 1)) = true /\
  is_ok (__post_init__ (fun e => e) 1) = true /\
  (exists ev, __post_init__ (fun e => e) 1 = Ok ev /\ _p_p0 ev 2 = None).
Proof.
  split; [now rewrite temperature_float | ].
  split; [reflexivity | ].
  eexists. split; [reflexivity | ].
  cbn [_p_p0]. unfold lambdify. eval_cbn.
  rewrite (real_div_none 1 (1 - 1)) by lra. apply lift2_none_r.
Qed.

(** * The numeric evaluator *)

Lemma ratios_rest_values (g : R) :
  g <> 1 ->
  direct_value temperature_ratio_isentropic g 0 = Ok (Some 1) /\
  direct_value pressure_ratio_isentropic g 0 = Ok (Some 1) /\
  direct_value density_ratio_isentropic g 0 = Ok (Some 1).
Proof.
  intros Hg.
  assert (Hb0 : 0 < 1 + (g - 1) / 2 * 0 ^ 2) by (simpl; lra).
  pose proof (temperature_denotes g 0 ltac:(lra)) as HT.
  rewrite temperatureRatio_at_rest in HT.
  pose proof (pressure_denotes g 0 Hg Hb0) as Hp.
  rewrite pressureRatio_at_rest in Hp.
  pose proof (density_denotes g 0 Hg Hb0) as Hr.
  rewrite densityRatio_at_rest in Hr.
  repeat split; now apply direct_value_of_denotes.
Qed.



Lemma nth_error_scale (a : ndarray) (s : R) (i : nat) (x : option R) :
  nth_error a i = Some x ->
  nth_error (scale a s) i = Some (option_map (fun r => r * s) x).
Proof.
  intros H. unfold scale. rewrite nth_error_map, H. reflexivity.
Qed.

Lemma area_float_pole (g : R) (e : expr) :
  area_mach_relation (PyFloat g) = Ok e -> eval 0 e = None.
Proof.
  unfold area_mach_relation. cbn [py_add py_sub py_mul py_truediv].
  destruct (Req_dec_T (g + 1) 0); [discriminate | ].
  destruct (Req_dec_T 2 0); [discriminate | ].
  destruct (Req_dec_T (2 * (g - 1)) 0); [discriminate | ].
  cbn [bind]. intros H. injection H as <-.
  eval_cbn. now rewrite real_div_zero.
Qed.

Lemma area_direct_pole (g : R) :
  direct_value area_mach_relation g 0 = Ok None.
Proof.
  unfold direct_value, direct, area_mach_relation. eval_cbn.
  now rewrite real_div_zero.
Qed.

(** C8.  M = 0 is a pole of the area-Mach relation: the formula has no
    finite value there, and the [A_Astar] accessor returns a non-finite
    entry (never a finite stand-in) at every position where the input
    holds 0, while the three state-ratio accessors return 1 there.  The
    accessor part is for a simplifier that leaves values at M = 0 as
    they are. *)
Theorem mach_zero_is_a_pole_of_the_area_ratio_only
    (simplify : expr -> expr) (g : R) :
  g <> 1 -> exact_at 0 simplify ->
  direct_value area_mach_relation g 0 = Ok None /\
  (forall e, area_mach_relation (PyFloat g) = Ok e -> eval 0 e = None) /\
  denotes temperature_ratio_isentropic g 0 1 /\
  denotes pressure_ratio_isentropic g 0 1 /\
  denotes density_ratio_isentropic g 0 1 /\
  exists ev,
    __post_init__ simplify g = Ok ev /\
    forall Ms i,
      nth_error Ms i = Some 0 ->
      nth_error (returns (A_Astar Ms) ev) i = Some None /\
      nth_error (returns (T_T0 Ms) ev) i = Some (Some 1) /\
      nth_error (returns (p_p0 Ms) ev) i = Some (Some 1) /\
      nth_error (returns (rho_rho0 Ms) ev) i = Some (Some 1).
Proof.
  intros Hg Hs.
  assert (Hb0 : 0 < 1 + (g - 1) / 2 * 0 ^ 2) by (simpl; lra).
  pose proof (temperature_denotes g 0 ltac:(lra)) as HT.
  rewrite temperatureRatio_at_rest in HT.
  pose proof (pressure_denotes g 0 Hg Hb0) as Hp.
  rewrite pressureRatio_at_rest in Hp.
  pose proof (density_denotes g 0 Hg Hb0) as Hr.
  rewrite densityRatio_at_rest in Hr.
  split; [apply area_direct_pole | ].
  split; [apply area_float_pole | ].
  repeat (split; [assumption | ]).
  destruct (post_init_ok simplify g)
    as (eT & ep & er & eA & HeT & Hep & Her & HeA & Hev).
  eexists. split; [exact Hev | ].
  intros Ms i Hi.
  cbn [returns A_Astar T_T0 p_p0 rho_rho0 mbind getattr mret fst].
  rewrite !nth_error_map, Hi.
  cbn [option_map _A_Astar _T_T0 _p_p0 _rho_rho0]. unfold lambdify.
  rewrite !Hs.
  apply direct_value_of_denotes in HT, Hp, Hr.
  pose proof (area_direct_pole g) as HA.
  unfold direct_value in HT, Hp, Hr, HA.
  rewrite HeT in HT. rewrite Hep in Hp. rewrite Her in Hr.
  rewrite HeA in HA. cbn [bind] in HT, Hp, Hr, HA.
  injection HT as ->. injection Hp as ->. injection Hr as ->.
  injection HA as ->. repeat split; reflexivity.
Qed.

Lemma mach_zero_is_a_pole_of_the_area_ratio_only_witness :
  exists ev,
    __post_init__ (fun e => e) 1.4 = Ok ev /\
    nth_error (returns (A_Astar [0; 1; 2]) ev) 0 = Some None /\
    nth_error (returns (T_T0 [0; 1; 2]) ev) 0 = Some (Some 1).
Proof.
  destruct (mach_zero_is_a_pole_of_the_area_ratio_only (fun e => e) 1.4)
    as (_ & _ & _ & _ & _ & ev & Hev & H).
  - lra.
  - intros e. reflexivity.
  - exists ev. split; [exact Hev | ].
    destruct (H [0; 1; 2] 0%nat eq_refl) as (HA & HT & _).
    split; assumption.
Defined.

(** C9.  No public operation changes the evaluator: after any call, and
    after any sequence of calls, the instance (its [gamma_value] and its
    four compiled functions) is the one that was constructed, so a call
    returns the same result whatever calls were made before it. *)
Theorem public_calls_leave_the_evaluator_unchanged
    (self : IsentropicNozzleNumeric) (cs : list call) (c : call) :
  leaves (invoke c) self = self /\
  run cs self = self /\
  returns (invoke c) (run cs self) = returns (invoke c) self.
Proof.
  assert (Hstep : forall c' s, leaves (invoke c') s = s).
  { intros c' s. destruct c' as [M | M | M | M | M T0 p0 rho0];
      try reflexivity.
    unfold leaves, invoke, dimensional_profiles, mbind.
    destruct rho0 as [r | ]; [reflexivity | ].
    destruct (float_truediv p0 (287 * T0)); reflexivity. }
  assert (Hrun : forall l s, run l s = s).
  { induction l as [ | c' l IH]; intros s; [reflexivity | ].
    cbn [run]. now rewrite Hstep. }
  split; [apply Hstep | ]. split; [apply Hrun | ].
  now rewrite Hrun.
Qed.

Lemma float_truediv_ok (x y : R) : y <> 0 -> float_truediv x y = Ok (x / y).
Proof.
  intros Hy. unfold float_truediv.
  destruct (Req_dec_T y 0); [contradiction | reflexivity].
Qed.

(** C6.  [dimensional_profiles] evaluates the four ratios at M and
    returns M, T = (T/T0) T0, p = (p/p0) p0, rho = (rho/rho0) rho0 and the
    unscaled area ratio, each with one entry per entry of M, in order;
    rho0 is p0 / (287 T0) when it is not supplied.  For the default
    evaluator (gamma = 1.4) and M = [0, 1, 2], T0 = 300, p0 = 1e5, the
    first entries are T = 300, p = 1e5 and rho = 1e5 / (287 * 300); this
    last part is for a simplifier that keeps values at M = 0. *)
Theorem dimensional_profiles_rescale
    (simplify : expr -> expr) (self : IsentropicNozzleNumeric)
    (M : list R) (T0 p0 : R) (rho0 : option R) :
  preserves_values_on (eq 0) simplify ->
  (rho0 = None -> T0 <> 0) ->
  (exists rho0' T p rho A,
     rho0' = match rho0 with Some r => r | None => p0 / (287 * T0) end /\
     returns (dimensional_profiles M T0 p0 rho0) self =
       Ok [("M", map Some M); ("T", T); ("p", p); ("rho", rho);
           ("A_Astar", A)]%string /\
     List.length T = List.length M /\ List.length p = List.length M /\
     List.length rho = List.length M /\ List.length A = List.length M /\
     forall i m,
       nth_error M i = Some m ->
       nth_error T i = Some (option_map (fun r => r * T0) (_T_T0 self m)) /\
       nth_error p i = Some (option_map (fun r => r * p0) (_p_p0 self m)) /\
       nth_error rho i
         = Some (option_map (fun r => r * rho0') (_rho_rho0 self m)) /\
       nth_error A i = Some (_A_Astar self m)) /\
  (exists ev d T p rho,
     __post_init__ simplify 1.4 = Ok ev /\
     returns (dimensional_profiles [0; 1; 2] 300 1e5 None) ev = Ok d /\
     dict_get d "T" = Ok T /\ dict_get d "p" = Ok p /\
     dict_get d "rho" = Ok rho /\
     nth_error T 0 = Some (Some 300) /\
     nth_error p 0 = Some (Some 1e5) /\
     nth_error rho 0 = Some (Some (1e5 / (287 * 300)))).
Proof.
  intros Hs HT0. split.
  - set (rho0' := match rho0 with Some r => r | None => p0 / (287 * T0) end).
    exists rho0', (scale (returns (T_T0 M) self) T0),
           (scale (returns (p_p0 M) self) p0),
           (scale (returns (rho_rho0 M) self) rho0'),
           (returns (A_Astar M) self).
    split; [reflexivity | ]. split.
    + unfold returns, dimensional_profiles. destruct rho0 as [r | ].
      * reflexivity.
      * rewrite float_truediv_ok; [reflexivity | ].
        specialize (HT0 eq_refl). nra.
    + unfold scale.
      cbn [returns T_T0 p_p0 rho_rho0 A_Astar mbind getattr mret fst].
      rewrite !length_map. repeat (split; [reflexivity | ]).
      intros i m Hi. rewrite !nth_error_map, Hi. repeat split; reflexivity.
  - destruct (post_init_ok simplify 1.4)
      as (eT & ep & er & eA & HeT & Hep & Her & HeA & Hev).
    pose proof (ratios_rest_values 1.4 ltac:(lra)) as (HvT & Hvp & Hvr).
    unfold direct_value in HvT, Hvp, Hvr.
    rewrite HeT in HvT. rewrite Hep in Hvp. rewrite Her in Hvr.
    cbn [bind] in HvT, Hvp, Hvr.
    injection HvT as HvT. injection Hvp as Hvp. injection Hvr as Hvr.
    apply (Hs _ 0 _ eq_refl) in HvT, Hvp, Hvr.
    eexists. eexists. do 3 eexists.
    split; [exact Hev | ]. split.
    + unfold returns, dimensional_profiles.
      rewrite float_truediv_ok by lra. reflexivity.
    + cbn [dict_get String.eqb Ascii.eqb Bool.eqb].
      repeat (split; [reflexivity | ]).
      unfold scale.
      cbn [map nth_error _T_T0 _p_p0 _rho_rho0]. unfold lambdify.
      rewrite HvT, Hvp, Hvr. cbn [option_map].
      repeat split; do 2 f_equal; lra.
Qed.

Lemma dimensional_profiles_rescale_witness :
  exists ev d T p rho,
    __post_init__ (fun e => e) 1.4 = Ok ev /\
    returns (dimensional_profiles [0; 1; 2] 300 1e5 None) ev = Ok d /\
    dict_get d "T" = Ok T /\ dict_get d "p" = Ok p /\
    dict_get d "rho" = Ok rho /\
    nth_error T 0 = Some (Some 300) /\
    nth_error p 0 = Some (Some 1e5) /\
    nth_error rho 0 = Some (Some (1e5 / (287 * 300))).
Proof.
  apply (dimensional_profiles_rescale (fun e => e)
           (mkNozzle 1.4 Some Some Some Some) [0; 1; 2] 300 1e5 None).
  - intros e M v _ Hv. exact Hv.
  - intros _. lra.
Defined.

(** * Further properties of the formulas *)

Lemma gamma_one_behaviour_parts :
  pressure_ratio_isentropic (PyFloat 1) = Raise ZeroDivisionError /\
  density_ratio_isentropic (PyFloat 1) = Raise ZeroDivisionError.
Proof.
  split.
  - unfold pressure_ratio_isentropic. rewrite temperature_float.
    cbn [bind py_sub]. rewrite py_truediv_float_raise by lra. reflexivity.
  - unfold density_ratio_isentropic. rewrite temperature_float.
    cbn [bind py_sub]. rewrite py_truediv_float_raise by lra. reflexivity.
Qed.


Lemma py_truediv_float_cases (x y : R) :
  (y = 0 /\ py_truediv (PyFloat x) (PyFloat y) = Raise ZeroDivisionError) \/
  (y <> 0 /\ py_truediv (PyFloat x) (PyFloat y) = Ok (PyFloat (x / y))).
Proof.
  destruct (Req_dec_T y 0) as [Hy | Hy].
  - left. split; [exact Hy | now apply py_truediv_float_raise].
  - right. split; [exact Hy | now apply py_truediv_float].
Qed.

Lemma pressure_float (g : R) :
  g <> 1 ->
  pressure_ratio_isentropic (PyFloat g) =
  Ok (Pow (Div (Num 1)
               (Add (Num 1) (Mul (Num ((g - 1) / 2)) (Pow mach (Num 2)))))
          (Num (g / (g - 1)))).
Proof.
  intros Hg. unfold pressure_ratio_isentropic. rewrite temperature_float.
  cbn [bind py_sub]. rewrite py_truediv_float by lra. reflexivity.
Qed.

Lemma density_float (g : R) :
  g <> 1 ->
  density_ratio_isentropic (PyFloat g) =
  Ok (Pow (Div (Num 1)
               (Add (Num 1) (Mul (Num ((g - 1) / 2)) (Pow mach (Num 2)))))
          (Num (1 / (g - 1)))).
Proof.
  intros Hg. unfold density_ratio_isentropic. rewrite temperature_float.
  cbn [bind py_sub]. rewrite py_truediv_float by lra. reflexivity.
Qed.

(** X1.  Called with a number, [temperature_ratio_isentropic] never
    raises; [pressure_ratio_isentropic] and [density_ratio_isentropic]
    raise [ZeroDivisionError] exactly for gamma = 1, and
    [area_mach_relation] exactly for gamma = 1 or gamma = -1.  Called
    with any symbolic expression, none of the four raises. *)
Theorem formulas_raise_exactly_at_singular_gamma (g : R) :
  is_ok (temperature_ratio_isentropic (PyFloat g)) = true /\
  (pressure_ratio_isentropic (PyFloat g) = Raise ZeroDivisionError
     <-> g = 1) /\
  (is_ok (pressure_ratio_isentropic (PyFloat g)) = true <-> g <> 1) /\
  (density_ratio_isentropic (PyFloat g) = Raise ZeroDivisionError
     <-> g = 1) /\
  (is_ok (density_ratio_isentropic (PyFloat g)) = true <-> g <> 1) /\
  (area_mach_relation (PyFloat g) = Raise ZeroDivisionError
     <-> g = 1 \/ g = -1) /\
  (is_ok (area_mach_relation (PyFloat g)) = true <-> g <> 1 /\ g <> -1) /\
  (forall s : expr,
     is_ok (temperature_ratio_isentropic (PyExpr s)) = true /\
     is_ok (pressure_ratio_isentropic (PyExpr s)) = true /\
     is_ok (density_ratio_isentropic (PyExpr s)) = true /\
     is_ok (area_mach_relation (PyExpr s)) = true).
Proof.
  split; [now rewrite temperature_float | ].
  assert (Hp1 : pressure_ratio_isentropic (PyFloat 1)
                = Raise ZeroDivisionError) by apply gamma_one_behaviour_parts.
  assert (Hd1 : density_ratio_isentropic (PyFloat 1)
                = Raise ZeroDivisionError) by apply gamma_one_behaviour_parts.
  assert (HA : (g = 1 \/ g = -1) ->
               area_mach_relation (PyFloat g) = Raise ZeroDivisionError).
  { intros Hg. unfold area_mach_relation. cbn [py_add py_sub py_mul].
    destruct Hg as [-> | ->].
    - rewrite !py_truediv_float by lra. cbn [bind].
      now rewrite py_truediv_float_raise by lra.
    - now rewrite py_truediv_float_raise by lra. }
  destruct (Req_dec_T g 1) as [E1 | N1].
  - subst g. rewrite Hp1, Hd1, HA by (now left). cbn [is_ok].
    repeat split; try tauto; try discriminate; try lra;
      intros; reflexivity.
  - rewrite pressure_float, density_float by assumption. cbn [is_ok].
    destruct (Req_dec_T g (-1)) as [E2 | N2].
    + rewrite HA by (now right). cbn [is_ok].
      repeat split; try tauto; try discriminate; try lra;
        intros; reflexivity.
    + rewrite area_float by lra. cbn [is_ok].
      repeat split; try tauto; try discriminate; try lra;
        intros; reflexivity.
Qed.



Lemma real_div_opp (x M : R) :
  real_div x (- M) = option_map Ropp (real_div x M).
Proof.
  unfold real_div.
  destruct (Req_dec_T (- M) 0) as [H | H], (Req_dec_T M 0) as [H' | H'];
    try lra; cbn [option_map]; [reflexivity | ].
  f_equal. field. exact H'.
Qed.

Lemma lift2_mul_opp (a b : option R) :
  lift2 (fun x y => Some (x * y)) (option_map Ropp a) b =
  option_map Ropp (lift2 (fun x y => Some (x * y)) a b).
Proof.
  destruct a as [x | ], b as [y | ]; cbn [lift2 option_map]; try reflexivity.
  f_equal. ring.
Qed.

Lemma sq_opp (M : R) : (- M) ^ 2 = M ^ 2.
Proof. ring. Qed.

(** Every expression a formula can yield for a bound gamma. *)
Lemma yields_temperature (g : R) (e : expr) :
  yields temperature_ratio_isentropic g e ->
  exists h, e = Div (Num 1) (Add (Num 1) (Mul h (Pow mach (Num 2)))) /\
            mentions_gamma h = false /\
            forall M M', eval M h = eval M' h.
Proof.
  intros [H | H].
  - rewrite temperature_float in H. injection H as <-.
    eexists. split; [reflexivity | ]. split; reflexivity.
  - unfold direct, temperature_ratio_isentropic in H.
    cbn [bind py_sub py_truediv sympify subs gamma mach] in H.
    injection H as <-.
    eexists. split; [reflexivity | ]. split; reflexivity.
Qed.

Lemma yields_power_of_temperature
    (formula : pyval -> result expr) (g : R) (e : expr) :
  formula = pressure_ratio_isentropic \/ formula = density_ratio_isentropic ->
  yields formula g e ->
  exists eT x,
    yields temperature_ratio_isentropic g eT /\ e = Pow eT x /\
    mentions_gamma x = false /\
    forall M M', eval M x = eval M' x.
Proof.
  intros Hf [H | H].
  - destruct (Req_dec_T g 1) as [-> | Hg].
    + destruct Hf as [-> | ->];
        [rewrite (proj1 gamma_one_behaviour_parts) in H
        | rewrite (proj2 gamma_one_behaviour_parts) in H]; discriminate.
    + destruct Hf as [-> | ->];
        [rewrite pressure_float in H by assumption
        | rewrite density_float in H by assumption];
        injection H as <-; do 2 eexists;
        (split; [left; apply temperature_float | ]);
        (split; [reflexivity | ]); split; reflexivity.
  - destruct Hf as [-> | ->];
      unfold direct, pressure_ratio_isentropic, density_ratio_isentropic,
        temperature_ratio_isentropic in H;
      cbn [bind py_sub py_truediv sympify subs gamma mach] in H;
      injection H as <-; do 2 eexists;
      (split; [right; reflexivity | ]);
      (split; [reflexivity | ]); split; reflexivity.
Qed.

Lemma yields_area (g : R) (e : expr) :
  yields area_mach_relation g e ->
  exists c h x,
    e = Mul (Div (Num 1) mach)
            (Pow (Mul c (Add (Num 1) (Mul h (Pow mach (Num 2))))) x) /\
    mentions_gamma c = false /\ mentions_gamma h = false /\
    mentions_gamma x = false /\
    forall M M',
      eval M c = eval M' c /\ eval M h = eval M' h /\ eval M x = eval M' x.
Proof.
  intros [H | H].
  - unfold area_mach_relation in H. cbn [py_add py_sub py_mul] in H.
    destruct (py_truediv_float_cases 2 (g + 1)) as [[_ E] | [_ E]];
      rewrite E in H; [discriminate | ].
    destruct (py_truediv_float_cases (g - 1) 2) as [[_ E'] | [_ E']];
      rewrite E' in H; [discriminate | ].
    destruct (py_truediv_float_cases (g + 1) (2 * (g - 1)))
      as [[_ E''] | [_ E'']]; rewrite E'' in H; [discriminate | ].
    cbn [bind sympify] in H. injection H as <-.
    do 3 eexists. split; [reflexivity | ].
    repeat split; reflexivity.
  - unfold direct, area_mach_relation in H.
    cbn [bind py_add py_sub py_mul py_truediv sympify subs gamma mach] in H.
    injection H as <-.
    do 3 eexists. split; [reflexivity | ].
    repeat split; reflexivity.
Qed.

Lemma eval_temperature_even (g M : R) (e : expr) :
  yields temperature_ratio_isentropic g e -> eval (- M) e = eval M e.
Proof.
  intros H. destruct (yields_temperature g e H) as (h & -> & _ & Hh).
  eval_cbn. rewrite !real_pow_sq, sq_opp, (Hh (- M) M). reflexivity.
Qed.

(** X3.  The formulas are evaluated as written for a negative Mach
    number: the temperature, pressure and density ratios take the same
    value at -M as at M, and the area ratio the opposite value (each
    undefined at -M exactly when undefined at M). *)
Theorem mach_sign_symmetry (g M : R) (e : expr) :
  (yields temperature_ratio_isentropic g e \/
   yields pressure_ratio_isentropic g e \/
   yields density_ratio_isentropic g e ->
   eval (- M) e = eval M e) /\
  (yields area_mach_relation g e ->
   eval (- M) e = option_map Ropp (eval M e)).
Proof.
  split.
  - intros [H | H].
    + now apply eval_temperature_even with g.
    + assert (Hy : exists eT x,
                 yields temperature_ratio_isentropic g eT /\ e = Pow eT x /\
                 mentions_gamma x = false /\
                 forall M M', eval M x = eval M' x).
      { destruct H as [H | H];
          [apply (yields_power_of_temperature pressure_ratio_isentropic)
          | apply (yields_power_of_temperature density_ratio_isentropic)];
          auto. }
      destruct Hy as (eT & x & HT & -> & _ & Hx).
      cbn [eval]. rewrite (eval_temperature_even g M eT HT), (Hx (- M) M).
      reflexivity.
  - intros H.
    destruct (yields_area g e H) as (c & h & x & -> & _ & _ & _ & Hc).
    destruct (Hc (- M) M) as (Ec & Eh & Ex).
    eval_cbn. rewrite !real_pow_sq, sq_opp, Ec, Eh, Ex, real_div_opp.
    apply lift2_mul_opp.
Qed.

Lemma mach_sign_symmetry_witness :
  exists eT eA,
    yields temperature_ratio_isentropic 1.4 eT /\
    eval (- 2) eT = eval 2 eT /\
    yields area_mach_relation 1.4 eA /\
    eval (- 2) eA = option_map Ropp (eval 2 eA).
Proof.
  do 2 eexists. split; [right; reflexivity | ]. split.
  - apply (mach_sign_symmetry 1.4 2). left. right. reflexivity.
  - split; [right; reflexivity | ].
    apply (mach_sign_symmetry 1.4 2). right. reflexivity.
Defined.



(** * Thermodynamic consistency of the closed forms *)

Lemma temperatureRatio_le_1 (g M : R) :
  1 <= g -> Spec.temperatureRatio g M <= 1.
Proof.
  intros Hg. unfold Spec.temperatureRatio.
  pose proof (pow2_ge_0 M) as Hsq.
  assert (Hb : 1 <= 1 + (g - 1) / 2 * M ^ 2) by nra.
  assert (H : / (1 + (g - 1) / 2 * M ^ 2) <= / 1)
    by (apply Rinv_le_contravar; lra).
  rewrite Rinv_1 in H. unfold Rdiv at 1. lra.
Qed.

Lemma Rpower_le_1 (x a : R) : 0 < x <= 1 -> 0 <= a -> Rpower x a <= 1.
Proof.
  intros Hx Ha. rewrite <- (Rpower_one_base a).
  now apply Rle_Rpower_l.
Qed.

Lemma Rpower_pos (x a : R) : 0 < Rpower x a.
Proof. unfold Rpower. apply exp_pos. Qed.

Lemma pressure_is_density_times_temperature (g M : R) :
  1 < g ->
  Spec.pressureRatio g M = Spec.densityRatio g M * Spec.temperatureRatio g M.
Proof.
  intros Hg. unfold Spec.pressureRatio, Spec.densityRatio.
  pose proof (temperatureRatio_pos g M (base_pos g M ltac:(lra))) as HT.
  rewrite <- (Rpower_1 (Spec.temperatureRatio g M)) at 3 by assumption.
  rewrite <- Rpower_plus. f_equal. field. lra.
Qed.

Lemma pressure_is_density_to_gamma (g M : R) :
  1 < g -> Spec.pressureRatio g M = Rpower (Spec.densityRatio g M) g.
Proof.
  intros Hg. unfold Spec.pressureRatio, Spec.densityRatio.
  rewrite Rpower_mult. f_equal. field. lra.
Qed.

Lemma temperature_is_density_to_gamma_minus_1 (g M : R) :
  1 < g -> Spec.temperatureRatio g M = Rpower (Spec.densityRatio g M) (g - 1).
Proof.
  intros Hg. unfold Spec.densityRatio.
  pose proof (temperatureRatio_pos g M (base_pos g M ltac:(lra))) as HT.
  rewrite Rpower_mult. replace (1 / (g - 1) * (g - 1)) with 1 by (field; lra).
  now rewrite Rpower_1.
Qed.

Lemma state_ratios_denote (g M : R) :
  1 < g ->
  denotes temperature_ratio_isentropic g M (Spec.temperatureRatio g M) /\
  denotes pressure_ratio_isentropic g M (Spec.pressureRatio g M) /\
  denotes density_ratio_isentropic g M (Spec.densityRatio g M).
Proof.
  intros Hg. pose proof (base_pos g M ltac:(lra)) as Hb.
  split; [apply temperature_denotes; lra | ].
  split; [apply pressure_denotes; [lra | exact Hb] | ].
  apply density_denotes; [lra | exact Hb].
Qed.

(** X5.  For gamma > 1 and every M, the values of the three state
    ratios obey the perfect-gas law and the isentropic relations:
    p/p0 = (rho/rho0) (T/T0), p/p0 = (rho/rho0)^gamma and
    T/T0 = (rho/rho0)^(gamma-1). *)
Theorem state_ratios_obey_gas_laws (g M : R) :
  1 < g ->
  exists T p rho,
    denotes temperature_ratio_isentropic g M T /\
    denotes pressure_ratio_isentropic g M p /\
    denotes density_ratio_isentropic g M rho /\
    p = rho * T /\ p = Rpower rho g /\ T = Rpower rho (g - 1).
Proof.
  intros Hg. destruct (state_ratios_denote g M Hg) as (HT & Hp & Hr).
  exists (Spec.temperatureRatio g M), (Spec.pressureRatio g M),
         (Spec.densityRatio g M).
  repeat (split; [assumption | ]).
  split; [now apply pressure_is_density_times_temperature | ].
  split; [now apply pressure_is_density_to_gamma | ].
  now apply temperature_is_density_to_gamma_minus_1.
Qed.

Lemma state_ratios_obey_gas_laws_witness :
  exists T p rho,
    denotes temperature_ratio_isentropic 1.4 2 T /\
    denotes pressure_ratio_isentropic 1.4 2 p /\
    denotes density_ratio_isentropic 1.4 2 rho /\
    p = rho * T /\ p = Rpower rho 1.4 /\ T = Rpower rho (1.4 - 1).
Proof. apply (state_ratios_obey_gas_laws 1.4 2). lra. Defined.

(** X6.  For gamma > 1 and every M the three state ratios lie in
    (0, 1], with p/p0 <= rho/rho0 and p/p0 <= T/T0; for M > 0 the area
    ratio is at least 1. *)
Theorem ratios_are_bounded (g M : R) :
  1 < g ->
  (exists T p rho,
     denotes temperature_ratio_isentropic g M T /\
     denotes pressure_ratio_isentropic g M p /\
     denotes density_ratio_isentropic g M rho /\
     0 < T <= 1 /\ 0 < p <= 1 /\ 0 < rho <= 1 /\ p <= rho /\ p <= T) /\
  (0 < M -> exists A, denotes area_mach_relation g M A /\ 1 <= A).
Proof.
  intros Hg. pose proof (base_pos g M ltac:(lra)) as Hb. split.
  - destruct (state_ratios_denote g M Hg) as (HT & Hp & Hr).
    exists (Spec.temperatureRatio g M), (Spec.pressureRatio g M),
           (Spec.densityRatio g M).
    repeat (split; [assumption | ]).
    pose proof (temperatureRatio_pos g M Hb) as HT0.
    pose proof (temperatureRatio_le_1 g M ltac:(lra)) as HT1.
    assert (Hr0 : 0 < Spec.densityRatio g M) by apply Rpower_pos.
    assert (Hr1 : Spec.densityRatio g M <= 1).
    { apply Rpower_le_1; [lra | ].
      left. apply Rdiv_lt_0_compat; lra. }
    assert (Hp0 : 0 < Spec.pressureRatio g M) by apply Rpower_pos.
    rewrite (pressure_is_density_times_temperature g M Hg) in *.
    repeat split; try lra; nra.
  - intros HM. exists (Spec.areaMachRatio g M).
    split; [apply area_denotes; lra | ].
    destruct (Req_dec_T M 1) as [-> | Hne].
    + rewrite areaMachRatio_sonic by lra. lra.
    + rewrite <- (areaMachRatio_sonic g) at 1 by lra.
      left. apply areaMachRatio_order; lra.
Qed.

Lemma ratios_are_bounded_witness :
  (exists T p rho,
     denotes temperature_ratio_isentropic 1.4 2 T /\
     denotes pressure_ratio_isentropic 1.4 2 p /\
     denotes density_ratio_isentropic 1.4 2 rho /\
     0 < T <= 1 /\ 0 < p <= 1 /\ 0 < rho <= 1 /\ p <= rho /\ p <= T) /\
  (exists A, denotes area_mach_relation 1.4 2 A /\ 1 <= A).
Proof.
  destruct (ratios_are_bounded 1.4 2) as (H1 & H2); [lra | ].
  split; [exact H1 | apply H2; lra].
Defined.

(** * Further properties of the numeric evaluator *)

Lemma constructed_accessor_values
    (simplify : expr -> expr) (g : R) (ev : IsentropicNozzleNumeric) :
  preserves_values_on admissible simplify -> 1 < g ->
  __post_init__ simplify g = Ok ev ->
  gamma_value ev = g /\
  forall M, 0 < M ->
    _T_T0 ev M = Some (Spec.temperatureRatio g M) /\
    _p_p0 ev M = Some (Spec.pressureRatio g M) /\
    _rho_rho0 ev M = Some (Spec.densityRatio g M) /\
    _A_Astar ev M = Some (Spec.areaMachRatio g M).
Proof.
  intros Hs Hg Hev.
  destruct (post_init_ok simplify g)
    as (eT & ep & er & eA & HeT & Hep & Her & HeA & Hev').
  rewrite Hev' in Hev. injection Hev as <-.
  split; [reflexivity | ]. intros M HM.
  pose proof (base_pos g M ltac:(lra)) as Hb.
  destruct (state_ratios_denote g M Hg) as (HT & Hp & Hr).
  pose proof (area_denotes g M ltac:(lra) ltac:(lra) ltac:(lra) Hb) as HA.
  apply direct_value_of_denotes in HT, Hp, Hr, HA.
  unfold direct_value in HT, Hp, Hr, HA.
  rewrite HeT in HT. rewrite Hep in Hp. rewrite Her in Hr.
  rewrite HeA in HA. cbn [bind] in HT, Hp, Hr, HA.
  injection HT as HT. injection Hp as Hp. injection Hr as Hr.
  injection HA as HA.
  pose proof (proj2 (admissible_pos M) HM) as Hadm.
  cbn [_T_T0 _p_p0 _rho_rho0 _A_Astar]. unfold lambdify.
  repeat split; now apply Hs.
Qed.

Lemma map_ext_Forall {A B : Type} (f h : A -> B) (P : A -> Prop) (l : list A) :
  Forall P l -> (forall a, P a -> f a = h a) -> map f l = map h l.
Proof.
  intros Hl Hfh. induction Hl as [ | a l Ha _ IH]; [reflexivity | ].
  cbn [map]. now rewrite IH, (Hfh a Ha).
Qed.

(** X7.  An evaluator constructed for gamma > 1 stores gamma, and on an
    array of positive Mach numbers its four accessors return, entry by
    entry, the closed-form values of T/T0, p/p0, rho/rho0 and A/A*
    (for a simplifier that keeps values at admissible Mach numbers). *)
Theorem evaluator_computes_the_closed_forms
    (simplify : expr -> expr) (g : R) (Ms : list R) :
  preserves_values_on admissible simplify -> 1 < g ->
  Forall (fun M => 0 < M) Ms ->
  exists ev,
    __post_init__ simplify g = Ok ev /\
    gamma_value ev = g /\
    returns (T_T0 Ms) ev
      = map (fun M => Some (Spec.temperatureRatio g M)) Ms /\
    returns (p_p0 Ms) ev = map (fun M => Some (Spec.pressureRatio g M)) Ms /\
    returns (rho_rho0 Ms) ev
      = map (fun M => Some (Spec.densityRatio g M)) Ms /\
    returns (A_Astar Ms) ev
      = map (fun M => Some (Spec.areaMachRatio g M)) Ms.
Proof.
  intros Hs Hg HMs.
  destruct (post_init_ok simplify g)
    as (eT & ep & er & eA & _ & _ & _ & _ & Hev).
  eexists. split; [exact Hev | ].
  destruct (constructed_accessor_values simplify g _ Hs Hg Hev) as (Hgv & Hv).
  split; [exact Hgv | ].
  cbn [returns T_T0 p_p0 rho_rho0 A_Astar mbind getattr mret fst].
  repeat split; apply (map_ext_Forall _ _ _ _ HMs); intros M HM;
    now destruct (Hv M HM) as (HT & Hp & Hr & HA).
Qed.

Lemma evaluator_computes_the_closed_forms_witness :
  exists ev,
    __post_init__ (fun e => e) 1.4 = Ok ev /\
    gamma_value ev = 1.4 /\
    returns (T_T0 [1; 2]) ev
      = map (fun M => Some (Spec.temperatureRatio 1.4 M)) [1; 2].
Proof.
  destruct (evaluator_computes_the_closed_forms (fun e => e) 1.4 [1; 2])
    as (ev & Hev & Hg & HT & _).
  - intros e M v _ Hv. exact Hv.
  - lra.
  - repeat constructor; lra.
  - exists ev. repeat split; assumption.
Defined.

Lemma evaluator_values_exist
    (simplify : expr -> expr) (g : R) (Ms : list R) :
  preserves_values_on admissible simplify -> 1 < g ->
  Forall (fun M => 0 < M) Ms ->
  exists ev,
    __post_init__ simplify g = Ok ev /\
    returns (T_T0 Ms) ev
      = map (fun M => Some (Spec.temperatureRatio g M)) Ms /\
    returns (p_p0 Ms) ev = map (fun M => Some (Spec.pressureRatio g M)) Ms /\
    returns (rho_rho0 Ms) ev
      = map (fun M => Some (Spec.densityRatio g M)) Ms.
Proof.
  intros Hs Hg HMs.
  destruct (post_init_ok simplify g)
    as (eT & ep & er & eA & _ & _ & _ & _ & Hev).
  eexists. split; [exact Hev | ].
  destruct (constructed_accessor_values simplify g _ Hs Hg Hev) as (_ & Hv).
  cbn [returns T_T0 p_p0 rho_rho0 mbind getattr mret fst].
  repeat split; apply (map_ext_Forall _ _ _ _ HMs); intros M HM;
    now destruct (Hv M HM) as (HT & Hp & Hr & HA).
Qed.


(** X9.  With rho0 derived, the dimensional profiles of an evaluator
    constructed for gamma > 1 satisfy the perfect-gas law with R = 287
    at every station of positive Mach number: p = rho * 287 * T. *)
Theorem dimensional_profiles_obey_gas_law
    (simplify : expr -> expr) (g : R) (Ms : list R) (T0 p0 : R) :
  preserves_values_on admissible simplify -> 1 < g -> T0 <> 0 ->
  Forall (fun M => 0 < M) Ms ->
  exists ev d T p rho,
    __post_init__ simplify g = Ok ev /\
    returns (dimensional_profiles Ms T0 p0 None) ev = Ok d /\
    dict_get d "T" = Ok T /\ dict_get d "p" = Ok p /\
    dict_get d "rho" = Ok rho /\
    forall i, (i < List.length Ms)%nat ->
      exists t pv r,
        nth_error T i = Some (Some t) /\
        nth_error p i = Some (Some pv) /\
        nth_error rho i = Some (Some r) /\
        pv = r * 287 * t.
Proof.
  intros Hs Hg HT0 HMs.
  destruct (evaluator_values_exist simplify g Ms Hs Hg HMs)
    as (ev & Hev & HT & Hp & Hr).
  exists ev. do 4 eexists. split; [exact Hev | ]. split.
  - unfold returns, dimensional_profiles.
    rewrite float_truediv_ok by lra. reflexivity.
  - cbn [dict_get String.eqb Ascii.eqb Bool.eqb].
    repeat (split; [reflexivity | ]).
    intros i Hi.
    destruct (nth_error Ms i) as [M | ] eqn:EM;
      [ | apply nth_error_None in EM; lia].
    cbn [returns T_T0 p_p0 rho_rho0 mbind getattr mret fst] in HT, Hp, Hr.
    rewrite HT, Hp, Hr. unfold scale. rewrite !nth_error_map, EM.
    cbn [option_map]. do 3 eexists. repeat (split; [reflexivity | ]).
    rewrite (pressure_is_density_times_temperature g M Hg). field. exact HT0.
Qed.

Lemma dimensional_profiles_obey_gas_law_witness :
  exists ev d T p rho,
    __post_init__ (fun e => e) 1.4 = Ok ev /\
    returns (dimensional_profiles [1; 2] 300 1e5 None) ev = Ok d /\
    dict_get d "T" = Ok T /\ dict_get d "p" = Ok p /\
    dict_get d "rho" = Ok rho /\
    forall i, (i < List.length [1; 2])%nat ->
      exists t pv r,
        nth_error T i = Some (Some t) /\
        nth_error p i = Some (Some pv) /\
        nth_error rho i = Some (Some r) /\
        pv = r * 287 * t.
Proof.
  apply (dimensional_profiles_obey_gas_law (fun e => e) 1.4 [1; 2] 300 1e5).
  - intros e M v _ Hv. exact Hv.
  - lra.
  - lra.
  - repeat constructor; lra.
Defined.

(** X10.  Along stations of positive Mach number, a larger Mach number
    means a strictly lower temperature, pressure and density in the
    dimensional profiles (T0 > 0, p0 > 0, rho0 derived, gamma > 1). *)
Theorem profiles_fall_as_mach_rises
    (simplify : expr -> expr) (g : R) (Ms : list R) (T0 p0 : R) :
  preserves_values_on admissible simplify -> 1 < g -> 0 < T0 -> 0 < p0 ->
  Forall (fun M => 0 < M) Ms ->
  exists ev d T p rho,
    __post_init__ simplify g = Ok ev /\
    returns (dimensional_profiles Ms T0 p0 None) ev = Ok d /\
    dict_get d "T" = Ok T /\ dict_get d "p" = Ok p /\
    dict_get d "rho" = Ok rho /\
    forall i j Mi Mj,
      nth_error Ms i = Some Mi -> nth_error Ms j = Some Mj -> Mi < Mj ->
      exists ti tj pi pj ri rj,
        nth_error T i = Some (Some ti) /\ nth_error T j = Some (Some tj) /\
        nth_error p i = Some (Some pi) /\ nth_error p j = Some (Some pj) /\
        nth_error rho i = Some (Some ri) /\
        nth_error rho j = Some (Some rj) /\
        tj < ti /\ pj < pi /\ rj < ri.
Proof.
  intros Hs Hg HT0 Hp0 HMs.
  destruct (evaluator_values_exist simplify g Ms Hs Hg HMs)
    as (ev & Hev & HT & Hp & Hr).
  exists ev. do 4 eexists. split; [exact Hev | ]. split.
  - unfold returns, dimensional_profiles.
    rewrite float_truediv_ok by lra. reflexivity.
  - cbn [dict_get String.eqb Ascii.eqb Bool.eqb].
    repeat (split; [reflexivity | ]).
    intros i j Mi Mj Ei Ej Hlt.
    cbn [returns T_T0 p_p0 rho_rho0 mbind getattr mret fst] in HT, Hp, Hr.
    rewrite HT, Hp, Hr. unfold scale. rewrite !nth_error_map, Ei, Ej.
    cbn [option_map]. do 6 eexists. repeat (split; [reflexivity | ]).
    assert (Hi : 0 < Mi).
    { apply nth_error_In in Ei.
      now apply (proj1 (Forall_forall _ Ms) HMs). }
    assert (Hrho0 : 0 < p0 / (287 * T0))
      by (apply Rdiv_lt_0_compat; lra).
    repeat split; apply Rmult_lt_compat_r; try assumption.
    + apply temperatureRatio_decreasing; lra.
    + apply pressureRatio_decreasing; lra.
    + apply densityRatio_decreasing; lra.
Qed.

Lemma profiles_fall_as_mach_rises_witness :
  exists ev d T p rho,
    __post_init__ (fun e => e) 1.4 = Ok ev /\
    returns (dimensional_profiles [1; 2] 300 1e5 None) ev = Ok d /\
    dict_get d "T" = Ok T /\ dict_get d "p" = Ok p /\
    dict_get d "rho" = Ok rho /\
    exists ti tj pi pj ri rj,
      nth_error T 0 = Some (Some ti) /\ nth_error T 1 = Some (Some tj) /\
      nth_error p 0 = Some (Some pi) /\ nth_error p 1 = Some (Some pj) /\
      nth_error rho 0 = Some (Some ri) /\
      nth_error rho 1 = Some (Some rj) /\
      tj < ti /\ pj < pi /\ rj < ri.
Proof.
  destruct (profiles_fall_as_mach_rises (fun e => e) 1.4 [1; 2] 300 1e5)
    as (ev & d & T & p & rho & Hev & Hd & HT & Hp & Hr & H).
  - intros e M v _ Hv. exact Hv.
  - lra.
  - lra.
  - lra.
  - repeat constructor; lra.
  - exists ev, d, T, p, rho. repeat (split; [assumption | ]).
    apply (H 0%nat 1%nat 1 2); [reflexivity | reflexivity | lra].
Defined.

(** * The returned dictionaries *)





(** * Inverting the area-Mach relation *)

Lemma continuity_pt_ln (x : R) : 0 < x -> continuity_pt ln x.
Proof.
  intros Hx. apply derivable_continuous_pt.
  exists (/ x). now apply derivable_pt_lim_ln.
Qed.

Lemma continuity_pt_exp (x : R) : continuity_pt exp x.
Proof. apply derivable_continuous_pt, derivable_pt_exp. Qed.

Lemma continuity_pt_base (g a : R) :
  continuity_pt (fun M => 2 / (g + 1) * (1 + (g - 1) / 2 * M ^ 2)) a.
Proof.
  apply derivable_continuous_pt. reg.
Qed.

Lemma areaMachRatio_continuous (g a : R) :
  1 < g -> 0 < a -> continuity_pt (Spec.areaMachRatio g) a.
Proof.
  intros Hg Ha.
  assert (Hb : 0 < 2 / (g + 1) * (1 + (g - 1) / 2 * a ^ 2)).
  { apply Rmult_lt_0_compat; [apply Rdiv_lt_0_compat; lra | ].
    apply base_pos; lra. }
  change (Spec.areaMachRatio g) with
    (mult_fct (fun M => 1 / M)
       (comp exp
          (mult_real_fct ((g + 1) / (2 * (g - 1)))
             (comp ln
                (fun M => 2 / (g + 1) * (1 + (g - 1) / 2 * M ^ 2)))))).
  apply continuity_pt_mult.
  - apply derivable_continuous_pt. reg. lra.
  - apply continuity_pt_comp; [ | apply continuity_pt_exp].
    apply continuity_pt_scal.
    apply continuity_pt_comp; [apply continuity_pt_base | ].
    now apply continuity_pt_ln.
Qed.

Lemma area_exceeds_subsonic (g v : R) :
  1 < g -> 0 < v ->
  exists M, 0 < M < 1 /\ v < Spec.areaMachRatio g M.
Proof.
  intros Hg Hv.
  set (e := (g + 1) / (2 * (g - 1))).
  set (c := 2 / (g + 1)).
  set (L := Rmin (-1) (e * ln c - ln v - 1)).
  assert (He : 0 < e) by (unfold e; apply Rdiv_lt_0_compat; lra).
  assert (HL1 : L <= -1) by apply Rmin_l.
  assert (HL2 : L <= e * ln c - ln v - 1) by apply Rmin_r.
  exists (exp L).
  assert (HM : 0 < exp L) by apply exp_pos.
  assert (HM1 : exp L < 1).
  { rewrite <- exp_0. apply exp_increasing. lra. }
  split; [lra | ].
  rewrite area_log_form by assumption. fold e c. rewrite ln_exp.
  assert (Hln : 0 < ln (1 + (g - 1) / 2 * exp L ^ 2)).
  { rewrite <- ln_1. apply ln_increasing; [lra | ].
    assert (0 < exp L ^ 2) by nra. nra. }
  rewrite <- (exp_ln v) at 1 by assumption.
  apply exp_increasing. nra.
Qed.

Lemma area_exceeds_supersonic (g v : R) :
  1 < g -> 0 < v ->
  exists M, 1 < M /\ v < Spec.areaMachRatio g M.
Proof.
  intros Hg Hv.
  set (e := (g + 1) / (2 * (g - 1))).
  set (c := 2 / (g + 1)).
  set (k := (g - 1) / 2).
  set (q := 2 / (g - 1)).
  set (L := Rmax 1 ((ln v + 1 - e * (ln c + ln k)) / q)).
  assert (He : 0 < e) by (unfold e; apply Rdiv_lt_0_compat; lra).
  assert (Hk : 0 < k) by (unfold k; lra).
  assert (Hq : 0 < q) by (unfold q; apply Rdiv_lt_0_compat; lra).
  assert (Heq : 2 * e - 1 = q) by (unfold e, q; field; lra).
  assert (HL1 : 1 <= L) by apply Rmax_l.
  assert (HL2 : (ln v + 1 - e * (ln c + ln k)) / q <= L) by apply Rmax_r.
  assert (HL3 : ln v + 1 - e * (ln c + ln k) <= q * L).
  { apply (Rmult_le_compat_l q) in HL2; [ | lra].
    replace (q * ((ln v + 1 - e * (ln c + ln k)) / q))
      with (ln v + 1 - e * (ln c + ln k)) in HL2 by (field; lra).
    exact HL2. }
  exists (exp L).
  assert (HM : 0 < exp L) by apply exp_pos.
  assert (HM1 : 1 < exp L).
  { rewrite <- exp_0. apply exp_increasing. lra. }
  split; [exact HM1 | ].
  rewrite area_log_form by assumption. fold e c k. rewrite ln_exp.
  assert (Hsq : 0 < exp L ^ 2) by nra.
  assert (Hln : ln k + 2 * L < ln (1 + k * exp L ^ 2)).
  { replace (ln k + 2 * L) with (ln (k * exp L ^ 2)).
    - apply ln_increasing; [now apply Rmult_lt_0_compat | lra].
    - rewrite ln_mult by assumption. rewrite ln_sq by assumption.
      now rewrite ln_exp. }
  rewrite <- (exp_ln v) at 1 by assumption.
  apply exp_increasing.
  assert (E : e * (ln c + (ln k + 2 * L)) - L
              = e * (ln c + ln k) + q * L) by (rewrite <- Heq; ring).
  assert (e * (ln c + (ln k + 2 * L)) < e * (ln c + ln (1 + k * exp L ^ 2)))
    by (apply Rmult_lt_compat_l; lra).
  lra.
Qed.

Lemma area_value_reached (g v lo hi : R) :
  1 < g -> 0 < lo < hi ->
  (Spec.areaMachRatio g lo < v < Spec.areaMachRatio g hi \/
   Spec.areaMachRatio g hi < v < Spec.areaMachRatio g lo) ->
  exists M, lo < M < hi /\ Spec.areaMachRatio g M = v.
Proof.
  intros Hg Hlh Hv.
  assert (Hcont : forall a, lo <= a <= hi ->
                    continuity_pt (Spec.areaMachRatio g) a).
  { intros a Ha. apply areaMachRatio_continuous; lra. }
  destruct Hv as [Hv | Hv].
  - destruct (IVT_interv (fun M => Spec.areaMachRatio g M - v) lo hi)
      as (z & Hz & Ez).
    + intros a Ha. apply continuity_pt_minus; [now apply Hcont | ].
      apply continuity_pt_const. intros x y. reflexivity.
    + lra.
    + lra.
    + lra.
    + exists z. split; [ | lra].
      destruct Hz as [[Hl | El] [Hh | Eh]]; try lra; subst z; lra.
  - destruct (IVT_interv (fun M => v - Spec.areaMachRatio g M) lo hi)
      as (z & Hz & Ez).
    + intros a Ha.
      apply (continuity_pt_minus (fun _ => v) (Spec.areaMachRatio g));
        [ | now apply Hcont].
      apply continuity_pt_const. intros x y. reflexivity.
    + lra.
    + lra.
    + lra.
    + exists z. split; [ | lra].
      destruct Hz as [[Hl | El] [Hh | Eh]]; try lra; subst z; lra.
Qed.

Lemma area_branch_injective (g M1 M2 : R) :
  1 < g ->
  (0 < M1 <= 1 /\ 0 < M2 <= 1) \/ (1 <= M1 /\ 1 <= M2) ->
  Spec.areaMachRatio g M1 = Spec.areaMachRatio g M2 -> M1 = M2.
Proof.
  intros Hg Hbranch E.
  destruct (Rtotal_order M1 M2) as [Hlt | [Heq | Hgt]]; [ | exact Heq | ];
    exfalso.
  - destruct Hbranch as [[B1 B2] | [B1 B2]].
    + assert (Spec.areaMachRatio g M2 < Spec.areaMachRatio g M1)
        by (apply areaMachRatio_order; try lra; nra).
      lra.
    + assert (Spec.areaMachRatio g M1 < Spec.areaMachRatio g M2)
        by (apply areaMachRatio_order; try lra; nra).
      lra.
  - destruct Hbranch as [[B1 B2] | [B1 B2]].
    + assert (Spec.areaMachRatio g M1 < Spec.areaMachRatio g M2)
        by (apply areaMachRatio_order; try lra; nra).
      lra.
    + assert (Spec.areaMachRatio g M2 < Spec.areaMachRatio g M1)
        by (apply areaMachRatio_order; try lra; nra).
      lra.
Qed.

Lemma area_denotes_pos (g M : R) :
  1 < g -> 0 < M -> denotes area_mach_relation g M (Spec.areaMachRatio g M).
Proof.
  intros Hg HM. apply area_denotes; try lra. apply base_pos; lra.
Qed.

(** X12.  As the docstring of [area_mach_relation] notes, every area
    ratio above 1 belongs to two Mach numbers: for gamma > 1 and
    v > 1 there is exactly one subsonic M (0 < M < 1) and exactly one
    supersonic M (M > 1) at which the relation has the value v. *)
Theorem area_ratio_has_one_mach_number_per_branch (g v : R) :
  1 < g -> 1 < v ->
  (exists M,
     0 < M < 1 /\ denotes area_mach_relation g M v /\
     forall M', 0 < M' <= 1 -> denotes area_mach_relation g M' v -> M' = M) /\
  (exists M,
     1 < M /\ denotes area_mach_relation g M v /\
     forall M', 1 <= M' -> denotes area_mach_relation g M' v -> M' = M).
Proof.
  intros Hg Hv.
  pose proof (areaMachRatio_sonic g ltac:(lra)) as H1.
  split.
  - destruct (area_exceeds_subsonic g v Hg ltac:(lra)) as (lo & Hlo & Hlov).
    destruct (area_value_reached g v lo 1 Hg ltac:(lra)) as (M & HM & EM);
      [right; lra | ].
    exists M. split; [lra | ]. split.
    + rewrite <- EM. apply area_denotes_pos; lra.
    + intros M' HM' D'.
      pose proof (area_denotes_pos g M' Hg ltac:(lra)) as D.
      apply (area_branch_injective g); [exact Hg | left; lra | ].
      rewrite EM. symmetry. exact (denotes_unique _ _ _ _ _ D' D).
  - destruct (area_exceeds_supersonic g v Hg ltac:(lra)) as (hi & Hhi & Hhiv).
    destruct (area_value_reached g v 1 hi Hg ltac:(lra)) as (M & HM & EM);
      [left; lra | ].
    exists M. split; [lra | ]. split.
    + rewrite <- EM. apply area_denotes_pos; lra.
    + intros M' HM' D'.
      pose proof (area_denotes_pos g M' Hg ltac:(lra)) as D.
      apply (area_branch_injective g); [exact Hg | right; lra | ].
      rewrite EM. symmetry. exact (denotes_unique _ _ _ _ _ D' D).
Qed.

Lemma area_ratio_has_one_mach_number_per_branch_witness :
  (exists M, 0 < M < 1 /\ denotes area_mach_relation 1.4 M 2) /\
  (exists M, 1 < M /\ denotes area_mach_relation 1.4 M 2).
Proof.
  destruct (area_ratio_has_one_mach_number_per_branch 1.4 2)
    as ((M1 & H1 & D1 & _) & (M2 & H2 & D2 & _)); [lra | lra | ].
  split; [exists M1 | exists M2]; split; assumption.
Defined.

(** * Sonic conditions *)

Lemma temperatureRatio_sonic (g : R) :
  1 < g -> Spec.temperatureRatio g 1 = 2 / (g + 1).
Proof. intros Hg. unfold Spec.temperatureRatio. field. lra. Qed.

(** X13.  At the sonic point M = 1 the state ratios take the critical
    values T/T0 = 2/(gamma+1), p/p0 = (2/(gamma+1))^(gamma/(gamma-1)) and
    rho/rho0 = (2/(gamma+1))^(1/(gamma-1)), for every gamma > 1. *)
Theorem sonic_state_ratios (g : R) :
  1 < g ->
  denotes temperature_ratio_isentropic g 1 (2 / (g + 1)) /\
  denotes pressure_ratio_isentropic g 1
          (Rpower (2 / (g + 1)) (g / (g - 1))) /\
  denotes density_ratio_isentropic g 1
          (Rpower (2 / (g + 1)) (1 / (g - 1))).
Proof.
  intros Hg. destruct (state_ratios_denote g 1 Hg) as (HT & Hp & Hr).
  unfold Spec.pressureRatio, Spec.densityRatio in Hp, Hr.
  rewrite temperatureRatio_sonic in HT, Hp, Hr by assumption.
  split; [exact HT | ]. split; [exact Hp | exact Hr].
Qed.

Lemma sonic_state_ratios_witness :
  denotes temperature_ratio_isentropic 1.4 1 (2 / (1.4 + 1)) /\
  denotes pressure_ratio_isentropic 1.4 1
          (Rpower (2 / (1.4 + 1)) (1.4 / (1.4 - 1))) /\
  denotes density_ratio_isentropic 1.4 1
          (Rpower (2 / (1.4 + 1)) (1 / (1.4 - 1))).
Proof. apply (sonic_state_ratios 1.4). lra. Defined.
